(** * upstream.go (prototypes/citizen-kane): manifest-to-script translator

    A shallow embedding of the build-plan generator of [upstream.go] and of
    the two functions of Go's [path] package it calls ([path.Clean] and
    [path.Join]), followed by the properties of the generated script.

    Go strings are byte sequences: they are [string] at the level of the
    program and [list ascii] inside the path algorithms. *)

From Stdlib Require Import String Ascii Arith NArith Lia Bool.
From Stdlib Require Strings.Byte.
From Stdlib Require Import List.
From Stdlib Require Import DecimalString DecimalNat.
Import ListNotations.
Open Scope list_scope.

(* ================================================================= *)
(** ** Go's [path] package: [Clean] and [Join] on byte sequences

    [upstream.go] imports [path] from Go's standard library.  The two
    functions it calls are embedded here after the library's source
    ([path/path.go]): [Clean] with its output buffer, its [dotdot] index
    and its four cases per path element, [Join] with its size test and its
    buffer of slash-separated elements. *)

Module path.

(** The scanning state of [path.Clean]: [buf] is the content [out[0..w)] of
    the output buffer (so [out.w = length buf]) and [dotdot] is the index
    where a [..] element must stop backtracking. *)
Record cstate : Type := mkc { buf : list ascii; dotdot : nat }.

(** [out.append(c)] *)
Definition append (c : ascii) (st : cstate) : cstate :=
  mkc (buf st ++ [c]) (dotdot st).

(** The inner loop of the [..] case,
    [for out.w > dotdot && out.index(out.w) != '/' { out.w-- }],
    started at index [w]; returns the final [out.w]. *)
Fixpoint backtrack (b : list ascii) (dd w : nat) : nat :=
  match w with
  | 0 => 0
  | S w' =>
      if (dd <? w) && negb (Ascii.eqb (nth w b zero) "/")
      then backtrack b dd w'
      else w
  end.

(** The [..] element: remove the last element when the buffer holds one
    past [dotdot]; otherwise, on a path that is not rooted, append [..]. *)
Definition elem_dotdot (rooted : bool) (st : cstate) : cstate :=
  if dotdot st <? length (buf st) then
    mkc (firstn (backtrack (buf st) (dotdot st) (length (buf st) - 1)) (buf st))
        (dotdot st)
  else if negb rooted then
    let st1 := if 0 <? length (buf st) then append "/"%char st else st in
    let st2 := append "."%char (append "."%char st1) in
    mkc (buf st2) (length (buf st2))
  else st.

(** Start of a real path element: "add slash if needed". *)
Definition elem_begin (rooted : bool) (st : cstate) : cstate :=
  if (rooted && negb (length (buf st) =? 1))
     || (negb rooted && negb (length (buf st) =? 0))
  then append "/"%char st
  else st.

(** [r+1 == n || path[r+1] == '/'], on the bytes after position [r]. *)
Definition at_end (l : list ascii) : bool :=
  match l with
  | [] => true
  | c :: _ => Ascii.eqb c "/"
  end.

(** The main loop [for r < n { switch ... }] over the unread bytes
    [path[r:]].  [inelem] is true inside the copy loop of the default case
    (a real element is being copied and its first byte has been written). *)
Fixpoint scan (rooted inelem : bool) (l : list ascii) (st : cstate)
  {struct l} : cstate :=
  match l with
  | [] => st
  | c :: l1 =>
      if Ascii.eqb c "/" then scan rooted false l1 st
      else if inelem then scan rooted true l1 (append c st)
      else if Ascii.eqb c "." && at_end l1 then scan rooted false l1 st
      else
        match l1 with
        | c2 :: l2 =>
            if Ascii.eqb c "." && Ascii.eqb c2 "." && at_end l2
            then scan rooted false l2 (elem_dotdot rooted st)
            else scan rooted true l1 (append c (elem_begin rooted st))
        | [] => scan rooted true l1 (append c (elem_begin rooted st))
        end
  end.

(** [path.Clean] *)
Definition clean (p : list ascii) : list ascii :=
  match p with
  | [] => ["."%char]
  | c :: rest =>
      let rooted := Ascii.eqb c "/" in
      let st :=
        if rooted then scan true false rest (mkc ["/"%char] 1)
        else scan false false p (mkc [] 0) in
      if length (buf st) =? 0 then ["."%char] else buf st
  end.

Definition Clean (p : string) : string :=
  string_of_list_ascii (clean (list_ascii_of_string p)).

(** [path.Join]: the non-empty elements (and any element once the buffer
    is non-empty) are joined with slashes, and the result is cleaned; all
    elements empty gives the empty string. *)
Fixpoint join_buf (b : list ascii) (elem : list string) : list ascii :=
  match elem with
  | [] => b
  | e :: rest =>
      let e' := list_ascii_of_string e in
      if (0 <? length b) || negb (length e' =? 0)
      then join_buf ((if 0 <? length b then b ++ ["/"%char] else b) ++ e') rest
      else join_buf b rest
  end.

Definition Join (elem : list string) : string :=
  if fold_left (fun n e => n + String.length e) elem 0 =? 0 then EmptyString
  else string_of_list_ascii (clean (join_buf [] elem)).

(** *** The element view of [Clean]

    [Clean] reads its input as the elements between slashes and keeps a
    buffer of the form [../../a/b]: some [..] elements followed by real
    elements.  The definitions below state that view; the theorems relate
    it to [scan]. *)

(** The elements of a path: the byte runs between slashes. *)
Fixpoint split (l : list ascii) : list (list ascii) :=
  match l with
  | [] => [[]]
  | c :: l' =>
      if Ascii.eqb c "/" then [] :: split l'
      else
        match split l' with
        | e :: es => (c :: e) :: es
        | [] => [[c]]
        end
  end.

(** Elements written one after the other with a slash in between. *)
Fixpoint join (es : list (list ascii)) : list ascii :=
  match es with
  | [] => []
  | [e] => e
  | e :: es' => e ++ "/"%char :: join es'
  end.

Definition slashfree (e : list ascii) : bool :=
  forallb (fun c => negb (Ascii.eqb c "/")) e.

Definition is_dot (e : list ascii) : bool :=
  match e with
  | [c] => Ascii.eqb c "."
  | _ => false
  end.

Definition is_dotdot (e : list ascii) : bool :=
  match e with
  | [c1; c2] => Ascii.eqb c1 "." && Ascii.eqb c2 "."
  | _ => false
  end.

(** A real element: not empty, no slash, neither [.] nor [..]. *)
Definition real (e : list ascii) : bool :=
  negb (length e =? 0) && slashfree e && negb (is_dot e) && negb (is_dotdot e).

(** What one iteration of the main loop does with the element [e]. *)
Definition elem (rooted : bool) (e : list ascii) (st : cstate) : cstate :=
  match e with
  | [] => st
  | _ =>
      if is_dot e then st
      else if is_dotdot e then elem_dotdot rooted st
      else fold_left (fun s c => append c s) e (elem_begin rooted st)
  end.

(** The buffer as elements: [ups] leading [..] elements, then the real
    elements [elems], the last one first. *)
Record astate : Type := mka { ups : nat; elems : list (list ascii) }.

Definition dd : list ascii := ["."%char; "."%char].

Definition root (rooted : bool) : list ascii :=
  if rooted then ["/"%char] else [].

Definition repr (rooted : bool) (a : astate) : cstate :=
  mkc (root rooted ++ join (repeat dd (ups a) ++ rev (elems a)))
      (if rooted then 1 else length (join (repeat dd (ups a)))).

Definition astep (rooted : bool) (a : astate) (e : list ascii) : astate :=
  match e with
  | [] => a
  | _ =>
      if is_dot e then a
      else if is_dotdot e then
        match elems a with
        | _ :: es => mka (ups a) es
        | [] => if rooted then a else mka (S (ups a)) []
        end
      else mka (ups a) (e :: elems a)
  end.

Definition norm (rooted : bool) (es : list (list ascii)) : astate :=
  fold_left (astep rooted) es (mka 0 []).

Definition wf (rooted : bool) (a : astate) : Prop :=
  (rooted = true -> ups a = 0) /\ forallb real (elems a) = true.

(** The copy loop on a whole element. *)
Definition put_all (e : list ascii) (st : cstate) : cstate :=
  fold_left (fun s c => append c s) e st.

Definition nonnil (e : list ascii) : bool := negb (length e =? 0).

(** The value of [dotdot] for a buffer with [k] leading [..] elements. *)
Definition stop (rooted : bool) (k : nat) : nat :=
  if rooted then 1 else length (join (repeat dd k)).

(** The elements of the cleaned form of a path that is not rooted. *)
Definition cleaned (x : list ascii) : list (list ascii) :=
  let a := norm false (split x) in repeat dd (ups a) ++ rev (elems a).

End path.

(* ================================================================= *)
(** ** The program: [upstream.go] *)

Module upstream.
Local Open Scope string_scope.

(** Bytes that have no plain spelling inside a string literal. *)
Definition nl : string := String "010"%char EmptyString.
Definition tab : string := String "009"%char EmptyString.
Definition dq : string := String "034"%char EmptyString.

(** *** Data model *)

(** [type Source struct]; a [[2]string] mapping is a pair. *)
Record Source : Type := mkSource {
  Name : string;
  Owner : string;
  Url : string;
  Branch : string;
  Mapping : list (string * string)
}.

(** [type Manifest struct] *)
Record Manifest : Type := mkManifest { Sources : list Source }.

(** A Go [(value, error)] result. *)
Inductive result (A : Type) : Type :=
| Ok (a : A)
| Err (e : string).
Arguments Ok {A} a.
Arguments Err {A} e.

(** The shell commands the program prints, one constructor per command
    template of the source. *)
Inductive Command : Type :=
| SetE
| GitFetch (url branch base : string)
| GitDup (src dst : string)
| GitZoomIn (branch dir : string)
| GitZoomOut (tmp branch dir : string)
| GitMerge (bottom top : string).

(** What one [fmt.Printf] writes to standard output: a line of commentary
    (header, progress, notices; [text] is the formatted line without its
    newlines) or a command. *)
Inductive Out : Type :=
| Diag (text : string) (newlines : nat)
| Sh (c : Command).

(** *** Formatting *)

(** [fmt.Sprintf("%d", n)] for the non-negative [n] of a slice index or
    length. *)
Definition itoa (n : nat) : string := NilZero.string_of_uint (Nat.to_uint n).

Fixpoint newlines (n : nat) : string :=
  match n with
  | 0 => ""
  | S n' => nl ++ newlines n'
  end.

(** The text of each command template. *)
Definition render_cmd (c : Command) : string :=
  match c with
  | SetE => "set -e" ++ nl
  | GitFetch url branch base =>
      "git fetch -f " ++ url ++ " " ++ branch ++ ":" ++ base ++ nl ++ nl
  | GitDup src dst =>
      "{ git branch -D '" ++ dst ++ "' 2>/dev/null || true; } && git branch -f '"
        ++ dst ++ "' '" ++ src ++ "'" ++ nl ++ nl
  | GitZoomIn branch dir =>
      "(cd $(git rev-parse --show-toplevel) && git filter-branch -f --subdirectory-filter '"
        ++ dir ++ "' '" ++ branch ++ "')" ++ nl ++ nl
  | GitZoomOut tmp branch dir =>
      "(" ++ nl
        ++ tab ++ "cd $(git rev-parse --show-toplevel) \" ++ nl
        ++ tab ++ "&& git filter-branch -f --tree-filter " ++ dq
        ++ "mkdir .'" ++ tmp ++ "' && mv * .'" ++ tmp ++ "'/ && mkdir -p '" ++ dir
        ++ "' && mv .'" ++ tmp ++ "'/* '" ++ dir ++ "'/ && rm -r .'" ++ tmp ++ "'"
        ++ dq ++ " '" ++ branch ++ "'" ++ nl
        ++ ")" ++ nl ++ nl
  | GitMerge bottom top =>
      "git checkout '" ++ top ++ "' && git merge -X ours '" ++ bottom
        ++ "' && git checkout '" ++ bottom ++ "' && git merge '" ++ top ++ "'"
        ++ nl ++ nl
  end.

Definition render (o : Out) : string :=
  match o with
  | Diag text n => text ++ newlines n
  | Sh c => render_cmd c
  end.

(** The bytes on standard output. *)
Definition script (os : list Out) : string := String.concat "" (map render os).

(** *** Random tokens *)

(** [encoding/hex]: the digit of a nibble, and [hex.EncodeToString]. *)
Definition hextable : list ascii :=
  list_ascii_of_string "0123456789abcdef".

Definition hexdigit (n : N) : ascii := nth (N.to_nat n) hextable "0"%char.

Definition hex_EncodeToString (src : list Byte.byte) : string :=
  string_of_list_ascii
    (flat_map (fun v => [hexdigit (N.shiftr (Byte.to_N v) 4);
                         hexdigit (N.land (Byte.to_N v) 15)]) src).

(** *** The run-time world and the output monad *)

(** What the run reads from outside: the byte stream of [crypto/rand] and
    the outcome of opening and of reading the file [UPSTREAM].  In the runs
    described here every read of the random source succeeds; the read that
    fails, and the panic of [RandomString], are the subject of module
    [process] below, which extends this one. *)
Record Env : Type := mkEnv {
  rand_Reader : nat -> Byte.byte;
  os_Open : result (result string)
}.

(** The state threaded through the run: standard output so far, standard
    error so far, and the number of random bytes consumed. *)
Record St : Type := mkSt {
  stdout : list Out;
  stderr : list string;
  rpos : nat
}.

Definition M (A : Type) : Type := St -> A * St.

Definition ret {A} (a : A) : M A := fun s => (a, s).
Definition bind {A B} (m : M A) (f : A -> M B) : M B :=
  fun s => let (a, s') := m s in f a s'.

Notation "x <- m ;; k" := (bind m (fun x => k))
  (at level 61, m at next level, right associativity).
Notation "m ;;; k" := (bind m (fun _ => k))
  (at level 61, right associativity).

(** [fmt.Printf] of one output item. *)
Definition printf (o : Out) : M unit :=
  fun s => (tt, mkSt (stdout s ++ [o])%list (stderr s) (rpos s)).

(** [for _, x := range l] and [for i, x := range l]. *)
Fixpoint for_range {A} (i : nat) (l : list A) (body : nat -> A -> M unit) : M unit :=
  match l with
  | [] => ret tt
  | x :: l' => body i x ;;; for_range (S i) l' body
  end.

Definition for_each {A} (l : list A) (body : A -> M unit) : M unit :=
  for_range 0 l (fun _ => body).

(** An action keeps a property of every item on standard output. *)
Definition all_out (P : Out -> bool) {A} (m : M A) : Prop :=
  forall s, forallb P (stdout s) = true -> forallb P (stdout (snd (m s))) = true.

(** The exit status of the process. *)
Inductive Exit : Type :=
| Exit0
| Exit1.

Section Program.

(** [toml.Decode] of the BurntSushi library: the decoded manifest or an
    error. *)
Variable toml_Decode : string -> result Manifest.
Variable env : Env.

(** [RandomString] when its read succeeds: 32 bytes from the random
    source, in hexadecimal ([process.RandomString] has the panic). *)
Definition RandomString : M string :=
  fun s =>
    let id := map (rand_Reader env) (seq (rpos s) 32) in
    (hex_EncodeToString id, mkSt (stdout s) (stderr s) (rpos s + 32)).

(** [log.Fatal(err)]: the message goes to standard error and the process
    exits with status 1. *)
Definition log_Fatal (e : string) : M Exit :=
  fun s => (Exit1, mkSt (stdout s) (stderr s ++ [e])%list (rpos s)).

Definition mergeLayer (bottom top : string) : M unit :=
  printf (Diag ("# mergeLayer(" ++ bottom ++ ", " ++ top ++ ")") 1) ;;;
  printf (Sh (GitMerge bottom top)).

Definition zoomIn (branch dir : string) : M unit :=
  printf (Diag ("# zoomIn(" ++ branch ++ ", " ++ dir ++ ")") 1) ;;;
  printf (Sh (GitZoomIn branch dir)).

Definition zoomOut (branch dir : string) : M unit :=
  printf (Diag ("# zoomOut(" ++ branch ++ ", " ++ dir ++ ")") 1) ;;;
  r <- RandomString ;;
  let tmp := substring 0 8 r in
  printf (Sh (GitZoomOut tmp branch dir)).

Definition dupBranch (src dst : string) : M unit :=
  printf (Diag ("# dupBranch(" ++ src ++ ", " ++ dst ++ ")") 1) ;;;
  printf (Sh (GitDup src dst)).

Definition dstBranch (buildid : string) : string :=
  path.Join ["citizenkane"; buildid; "dst"].

Definition baseBranch (src : Source) (buildid : string) : string :=
  path.Join ["citizenkane"; buildid; "base"; Name src].

Definition mapBranch (src : Source) (buildid : string) (mapid : nat) : string :=
  path.Join ["citizenkane"; buildid; "map"; Name src; itoa mapid].

Definition fetch (src : Source) (buildid : string) : M unit :=
  printf (Diag ("# [" ++ buildid ++ "] fetch(" ++ Name src ++ ")") 1) ;;;
  printf (Sh (GitFetch (Url src) (Branch src) (baseBranch src buildid))).

(** The body of the "Apply defaults" loop (lines 93-100).  The loop
    variable [src] is a copy of the slice element: the two assignments
    change the copy, which is dropped when the iteration ends. *)
Definition apply_defaults (src : Source) : M unit :=
  let src :=
    if Branch src =? "" then
      mkSource (Name src) (Owner src) (Url src) "master" (Mapping src)
    else src in
  let src :=
    if (length (Mapping src) =? 0)%nat then
      mkSource (Name src) (Owner src) (Url src) (Branch src) [("/", "/")]
    else src in
  ret tt.

(** The body of the fetch loop (lines 103-109). *)
Definition fetch_source (buildid : string) (src : Source) : M unit :=
  if Name src =? "" then printf (Diag "skipping unnamed source" 1)
  else fetch src buildid.

(** The body of the inner mapping loop (lines 116-135). *)
Definition apply_mapping (buildid : string) (src : Source) (baseBranch : string)
  (mapid : nat) (mapping : string * string) : M unit :=
  let from := path.Clean (fst mapping) in
  let to := path.Clean (snd mapping) in
  let mapBranch := mapBranch src buildid mapid in
  dupBranch baseBranch mapBranch ;;;
  (if negb (from =? "/") then zoomIn mapBranch from else ret tt) ;;;
  (if negb (to =? "") then zoomOut mapBranch to else ret tt) ;;;
  mergeLayer (dstBranch buildid) mapBranch.

(** The body of the outer mapping loop (lines 114-136). *)
Definition map_source (buildid : string) (src : Source) : M unit :=
  let baseBranch := baseBranch src buildid in
  for_range 0 (Mapping src) (apply_mapping buildid src baseBranch).

(** [main], from the decoded manifest on (lines 92-136). *)
Definition generate (buildid : string) (m : Manifest) : M unit :=
  for_each (Sources m) apply_defaults ;;;
  printf (Diag ("# Loaded " ++ itoa (length (Sources m))
                  ++ " sources from ./UPSTREAM") 2) ;;;
  for_each (Sources m) (fetch_source buildid) ;;;
  dupBranch "master" (dstBranch buildid) ;;;
  for_each (Sources m) (map_source buildid).

(** [buildid := RandomString()[:4]] *)
Definition new_buildid : M string :=
  r <- RandomString ;;
  ret (substring 0 4 r).

(** [main] *)
Definition main : M Exit :=
  buildid <- new_buildid ;;
  printf (Diag ("# Starting build " ++ buildid) 1) ;;;
  printf (Sh SetE) ;;;
  match os_Open env with
  | Err e => log_Fatal e
  | Ok f =>
      match f with
      | Err e => log_Fatal e
      | Ok data =>
          match toml_Decode data with
          | Err e => log_Fatal e
          | Ok m => generate buildid m ;;; ret Exit0
          end
      end
  end.

(** A run of the process from the empty state. *)
Definition run : Exit * St := main (mkSt [] [] 0).

End Program.

(** *** Observations on a run *)

(** The commands of an output, in order, without the commentary. *)
Definition commands (os : list Out) : list Command :=
  flat_map (fun o => match o with Sh c => [c] | Diag _ _ => [] end) os.

(** The commentary lines of an output, in order. *)
Definition diagnostics (os : list Out) : list string :=
  flat_map (fun o => match o with Diag t _ => [t] | Sh _ => [] end) os.

Definition is_fetch (c : Command) : bool :=
  match c with GitFetch _ _ _ => true | _ => false end.

Definition is_zoomOut (c : Command) : bool :=
  match c with GitZoomOut _ _ _ => true | _ => false end.

(** The number of zoom-out commands printed so far. *)
Definition zoomOuts (s : St) : nat :=
  length (filter is_zoomOut (commands (stdout s))).

(** The text lines of a script: the byte runs between newlines. *)
Fixpoint lines (s : string) : list string :=
  match s with
  | EmptyString => [EmptyString]
  | String c s' =>
      if Ascii.eqb c "010" then EmptyString :: lines s'
      else
        match lines s' with
        | l :: ls => String c l :: ls
        | [] => [String c EmptyString]
        end
  end.

Definition begins_with_hash (t : string) : bool :=
  match t with
  | String c _ => Ascii.eqb c "#"
  | EmptyString => false
  end.

(** An output item that is a command, a comment line, or the notice for
    an unnamed source. *)
Definition comment_or_skip (o : Out) : bool :=
  match o with
  | Diag t _ => begins_with_hash t || (t =? "skipping unnamed source")
  | Sh _ => true
  end.

Definition is_hexdigit (c : ascii) : bool :=
  existsb (Ascii.eqb c) hextable.

Definition is_digit (c : ascii) : bool :=
  (48 <=? nat_of_ascii c)%nat && (nat_of_ascii c <=? 57)%nat.

(** A source name made of real path elements only: a clean relative path
    such as [docs] or [libs/net], with no empty, [.] or [..] element. *)
Definition name_ok (n : string) : bool :=
  forallb path.real (path.split (list_ascii_of_string n)).

(** The bytes in front of the last elements of a branch name, after the
    leading [c] of [citizenkane]. *)
Definition ck_prefix (buildid kind : string) : list ascii :=
  (list_ascii_of_string "itizenkane" ++ "/"%char :: list_ascii_of_string buildid
    ++ "/"%char :: list_ascii_of_string kind)%list.

(** The command sequence of one mapping as the specification words it:
    one duplicate-to-map, a zoom-in only when the cleaned from-path is not
    the root, a zoom-out only when the cleaned to-path is not empty, one
    merge-layer. *)
Definition layer (buildid : string) (src : Source) (mapid : nat)
  (mapping : string * string) (tmp : string) : list Command :=
  let from := path.Clean (fst mapping) in
  let to := path.Clean (snd mapping) in
  let mb := mapBranch src buildid mapid in
  ([GitDup (baseBranch src buildid) mb]
     ++ (if from =? "/" then [] else [GitZoomIn mb from])
     ++ (if to =? "" then [] else [GitZoomOut tmp mb to])
     ++ [GitMerge (dstBranch buildid) mb])%list.

(** The outcomes on which [main] calls [log.Fatal]: the file cannot be
    opened, cannot be read, or does not decode. *)
Definition manifest_unusable (toml_Decode : string -> result Manifest)
  (env : Env) : Prop :=
  match os_Open env with
  | Err _ => True
  | Ok (Err _) => True
  | Ok (Ok data) =>
      match toml_Decode data with
      | Err _ => True
      | Ok _ => False
      end
  end.

(** *** Sample inputs *)

(** A random source and a readable [UPSTREAM] file. *)
Definition sample_env : Env :=
  mkEnv (fun n => nth n [Byte.xc3; Byte.x1f; Byte.x5a; Byte.x07] Byte.x9e)
        (Ok (Ok "[[source]]")).

(** The source of the specification's example: branch unset, one mapping. *)
Definition docs_src : Source :=
  mkSource "docs" "" "https://example/docs.git" "" [("/", "/documentation")].

(** A named source with no mapping. *)
Definition nomap_src : Source :=
  mkSource "libs" "" "https://example/libs.git" "stable" [].

(** A source with an empty name and one mapping. *)
Definition unnamed_src : Source :=
  mkSource "" "" "https://example/x.git" "dev" [("/a/", "/x")].

(** A named source with its branch set and one mapping. *)
Definition tools_src : Source :=
  mkSource "tools" "" "https://example/tools.git" "main" [("/cmd/", "/tools")].

(** Two sources whose names differ by a trailing slash. *)
Definition a_src : Source := mkSource "a" "" "https://example/a.git" "main" [].
Definition a_slash_src : Source := mkSource "a/" "" "https://example/b.git" "main" [].

(** A decoder that yields a given manifest. *)
Definition decodes_to (m : Manifest) : string -> result Manifest :=
  fun _ => Ok m.

End upstream.

(* ================================================================= *)
(** ** The plan of a run *)

Module plan.
Import upstream.
Local Open Scope string_scope.

(** The staging name [zoomOut] takes when [pos] random bytes have been
    consumed: the first eight characters of [RandomString()]. *)
Definition tmp_at (env : Env) (pos : nat) : string :=
  substring 0 8 (hex_EncodeToString (map (rand_Reader env) (seq pos 32))).

(** The fetch commands of the fetch loop: one per source with a name. *)
Definition fetch_cmds (buildid : string) (srcs : list Source) : list Command :=
  flat_map
    (fun src =>
       if Name src =? "" then []
       else [GitFetch (Url src) (Branch src) (baseBranch src buildid)])
    srcs.

(** The commands of the inner mapping loop, from index [i] on, when [pos]
    random bytes have been consumed. *)
Fixpoint mapping_cmds (env : Env) (buildid : string) (src : Source)
  (i pos : nat) (ms : list (string * string)) : list Command :=
  match ms with
  | [] => []
  | m :: ms' =>
      (layer buildid src i m (tmp_at env pos)
         ++ mapping_cmds env buildid src (S i) (pos + 32) ms')%list
  end.

(** The commands of the outer mapping loop. *)
Fixpoint source_cmds (env : Env) (buildid : string) (pos : nat)
  (srcs : list Source) : list Command :=
  match srcs with
  | [] => []
  | src :: rest =>
      (mapping_cmds env buildid src 0 pos (Mapping src)
         ++ source_cmds env buildid (pos + 32 * length (Mapping src)) rest)%list
  end.

(** An action started in [s] prints the commands [cs], in this order, and
    consumes [k] random bytes. *)
Definition emits {A} (m : M A) (s : St) (cs : list Command) (k : nat) : Prop :=
  commands (stdout (snd (m s))) = (commands (stdout s) ++ cs)%list
  /\ rpos (snd (m s)) = rpos s + k.

(** The directory of a zoom command is a cleaned path, and that of a
    zoom-in is not the root. *)
Definition zoom_dir_ok (o : Out) : bool :=
  match o with
  | Sh (GitZoomIn _ dir) => (path.Clean dir =? dir) && negb (dir =? "/")
  | Sh (GitZoomOut _ _ dir) => (path.Clean dir =? dir) && negb (dir =? "")
  | _ => true
  end.

(** The first byte of a string is a slash. *)
Definition is_rooted (p : string) : bool :=
  match p with
  | String c _ => Ascii.eqb c "/"
  | EmptyString => false
  end.

(** The last byte of a string is a slash. *)
Fixpoint ends_with_slash (p : string) : bool :=
  match p with
  | EmptyString => false
  | String c EmptyString => Ascii.eqb c "/"
  | String _ p' => ends_with_slash p'
  end.

(** The value of a hexadecimal digit and the byte two digits spell: the
    inverse of the two-digit encoding of [hex.EncodeToString]. *)
Definition hexval (c : ascii) : N :=
  match find (fun i => Ascii.eqb c (nth i hextable "0"%char)) (seq 0 16) with
  | Some i => N.of_nat i
  | None => 0%N
  end.

Definition hex_byte (hi lo : ascii) : option Byte.byte :=
  Byte.of_N (16 * hexval hi + hexval lo).

(** The manifest [main] works on when it reaches the loops. *)
Definition decoded (toml_Decode : string -> result Manifest) (env : Env)
  : option Manifest :=
  match os_Open env with
  | Ok (Ok data) =>
      match toml_Decode data with
      | Ok m => Some m
      | Err _ => None
      end
  | _ => None
  end.

End plan.

(* ================================================================= *)
(** ** The process, with a random source that can fail *)

(** [RandomString] panics when [io.ReadFull(rand.Reader, id)] returns an
    error (lines 190-192).  Module [upstream] describes the runs in which
    every read of the random source succeeds; this module describes every
    run: a read may fail, the panic ends the process at that point, and
    with no failing read the process is the run of [upstream]. *)

Module process.
Import upstream.
Local Open Scope string_scope.

(** The world of a run: the world of [upstream], and for each read of the
    random source, named by the number of random bytes consumed before it,
    the error [io.ReadFull] returns, if any. *)
Record World : Type := mkWorld {
  world_env : Env;
  rand_error : nat -> option string
}.

(** How an action ends: it returns, or it panics with an error. *)
Inductive Outcome (A : Type) : Type :=
| Returned (a : A) (s : St)
| Panicked (e : string) (s : St).
Arguments Returned {A} a s.
Arguments Panicked {A} e s.

Definition P (A : Type) : Type := St -> Outcome A.

Definition ret {A} (a : A) : P A := fun s => Returned a s.

Definition bind {A B} (m : P A) (f : A -> P B) : P B :=
  fun s =>
    match m s with
    | Returned a s' => f a s'
    | Panicked e s' => Panicked e s'
    end.

(** An action of [upstream], which cannot panic. *)
Definition lift {A} (m : M A) : P A :=
  fun s => let (a, s') := m s in Returned a s'.

Notation "x <~ m ;; k" := (bind m (fun x => k))
  (at level 61, m at next level, right associativity).
Notation "m ~;; k" := (bind m (fun _ => k))
  (at level 61, right associativity).

Fixpoint for_range {A} (i : nat) (l : list A) (body : nat -> A -> P unit) : P unit :=
  match l with
  | [] => ret tt
  | x :: l' => body i x ~;; for_range (S i) l' body
  end.

Definition for_each {A} (l : list A) (body : A -> P unit) : P unit :=
  for_range 0 l (fun _ => body).

Section Process.

Variable toml_Decode : string -> result Manifest.
Variable w : World.

(** [RandomString] (lines 187-194): the read of 32 bytes fails with a panic
    or gives the bytes, which are returned in hexadecimal. *)
Definition RandomString : P string :=
  fun s =>
    match rand_error w (rpos s) with
    | Some err => Panicked err s
    | None =>
        let id := map (rand_Reader (world_env w)) (seq (rpos s) 32) in
        Returned (hex_EncodeToString id)
                 (mkSt (stdout s) (stderr s) (rpos s + 32))
    end.

(** [zoomOut] (lines 152-162) *)
Definition zoomOut (branch dir : string) : P unit :=
  lift (printf (Diag ("# zoomOut(" ++ branch ++ ", " ++ dir ++ ")") 1)) ~;;
  r <~ RandomString ;;
  let tmp := substring 0 8 r in
  lift (printf (Sh (GitZoomOut tmp branch dir))).

(** The body of the inner mapping loop (lines 116-135). *)
Definition apply_mapping (buildid : string) (src : Source) (baseBranch : string)
  (mapid : nat) (mapping : string * string) : P unit :=
  let from := path.Clean (fst mapping) in
  let to := path.Clean (snd mapping) in
  let mapBranch := mapBranch src buildid mapid in
  lift (dupBranch baseBranch mapBranch) ~;;
  (if negb (from =? "/") then lift (zoomIn mapBranch from) else ret tt) ~;;
  (if negb (to =? "") then zoomOut mapBranch to else ret tt) ~;;
  lift (mergeLayer (dstBranch buildid) mapBranch).

(** The body of the outer mapping loop (lines 114-136). *)
Definition map_source (buildid : string) (src : Source) : P unit :=
  let baseBranch := baseBranch src buildid in
  for_range 0 (Mapping src) (apply_mapping buildid src baseBranch).

(** [main], from the decoded manifest on (lines 92-136); the loops that
    read no random byte are those of [upstream]. *)
Definition generate (buildid : string) (m : Manifest) : P unit :=
  lift (upstream.for_each (Sources m) apply_defaults) ~;;
  lift (printf (Diag ("# Loaded " ++ itoa (length (Sources m))
                        ++ " sources from ./UPSTREAM") 2)) ~;;
  lift (upstream.for_each (Sources m) (fetch_source buildid)) ~;;
  lift (dupBranch "master" (dstBranch buildid)) ~;;
  for_each (Sources m) (map_source buildid).

(** [buildid := RandomString()[:4]] *)
Definition new_buildid : P string :=
  r <~ RandomString ;;
  ret (substring 0 4 r).

(** [main] *)
Definition main : P Exit :=
  buildid <~ new_buildid ;;
  lift (printf (Diag ("# Starting build " ++ buildid) 1)) ~;;
  lift (printf (Sh SetE)) ~;;
  match os_Open (world_env w) with
  | Err e => lift (log_Fatal e)
  | Ok f =>
      match f with
      | Err e => lift (log_Fatal e)
      | Ok data =>
          match toml_Decode data with
          | Err e => lift (log_Fatal e)
          | Ok m => generate buildid m ~;; ret Exit0
          end
      end
  end.

(** The process from the empty state. *)
Definition run : Outcome Exit := main (mkSt [] [] 0).

End Process.

(** The exit status of the process: 0 when [main] returns, 1 after
    [log.Fatal], 2 after a panic. *)
Definition exit_code (o : Outcome Exit) : nat :=
  match o with
  | Returned Exit0 _ => 0
  | Returned Exit1 _ => 1
  | Panicked _ _ => 2
  end.

(** Standard error when the process has ended: a panic writes its error
    there. *)
Definition final_stderr (o : Outcome Exit) : list string :=
  match o with
  | Returned _ s => stderr s
  | Panicked e s => (stderr s ++ [("panic: " ++ e)%string])%list
  end.

(** The [n] reads that follow the consumption of [pos] bytes all succeed. *)
Definition reads_ok (w : World) (pos n : nat) : bool :=
  forallb
    (fun j => match rand_error w (pos + 32 * j) with None => true | Some _ => false end)
    (seq 0 n).

(** A read of the random source that the run performs fails: the read for
    the build id, or, when the manifest decodes, the read of one of its
    mappings' zoom-outs (the k-th mapping of the manifest reads after
    [32 * k] bytes). *)
Definition random_read_fails (toml_Decode : string -> result Manifest)
  (w : World) : Prop :=
  rand_error w 0 <> None
  \/ exists data m k,
       os_Open (world_env w) = Ok (Ok data)
       /\ toml_Decode data = Ok m
       /\ 1 <= k <= length (flat_map Mapping (Sources m))
       /\ rand_error w (32 * k) <> None.

(** A world whose random source never fails, and one whose first read
    fails. *)
Definition healthy (env : Env) : World := mkWorld env (fun _ => None).

Definition broken_random (env : Env) : World :=
  mkWorld env (fun _ => Some "open /dev/urandom: no such file or directory").

End process.
(* ================================================================= *)
(** ** Properties of [path.Clean] *)

Module path_facts.
Import path.

Lemma slash_eqb_false (c : ascii) :
  negb (Ascii.eqb c "/") = true -> Ascii.eqb c "/" = false.
Proof. now destruct (Ascii.eqb c "/"). Qed.

Lemma slashfree_cons c e :
  slashfree (c :: e) = true <-> Ascii.eqb c "/" = false /\ slashfree e = true.
Proof.
  unfold slashfree; simpl. rewrite andb_true_iff, negb_true_iff. tauto.
Qed.

Lemma slashfree_app e1 e2 :
  slashfree (e1 ++ e2) = slashfree e1 && slashfree e2.
Proof. apply forallb_app. Qed.

(** *** [split] and [join] *)

Lemma split_not_nil l : split l <> [].
Proof.
  destruct l as [|c l]; simpl; [discriminate|].
  destruct (Ascii.eqb c "/"); [discriminate|].
  destruct (split l); discriminate.
Qed.

Lemma split_slashfree_elem e :
  slashfree e = true -> split e = [e].
Proof.
  induction e as [|c e IH]; intros H; [reflexivity|].
  apply slashfree_cons in H as [Hc He]. simpl. rewrite Hc, (IH He). reflexivity.
Qed.

Lemma split_elem_slash e l :
  slashfree e = true -> split (e ++ "/"%char :: l) = e :: split l.
Proof.
  induction e as [|c e IH]; intros H; simpl.
  - reflexivity.
  - apply slashfree_cons in H as [Hc He]. rewrite Hc, (IH He). reflexivity.
Qed.

Lemma split_join es :
  es <> [] -> forallb slashfree es = true -> split (join es) = es.
Proof.
  induction es as [|e es IH]; intros Hne H; [congruence|].
  simpl in H. apply andb_true_iff in H as [He Hes].
  destruct es as [|e' es'].
  - simpl. now apply split_slashfree_elem.
  - change (join (e :: e' :: es')) with (e ++ "/"%char :: join (e' :: es')).
    rewrite split_elem_slash by assumption.
    rewrite IH; [reflexivity|discriminate|assumption].
Qed.

Lemma join_cons_cons e e' es :
  join (e :: e' :: es) = e ++ "/"%char :: join (e' :: es).
Proof. reflexivity. Qed.

Lemma join_split l : join (split l) = l.
Proof.
  induction l as [|c l IH]; [reflexivity|].
  simpl. destruct (Ascii.eqb_spec c "/") as [->|Hc].
  - pose proof (split_not_nil l) as Hn.
    destruct (split l) as [|e es]; [congruence|].
    rewrite join_cons_cons, IH. reflexivity.
  - destruct (split l) as [|e es] eqn:E; [now destruct (split_not_nil l)|].
    destruct es as [|e' es]; simpl in *; now rewrite <- IH.
Qed.

Lemma split_slashfree l : forallb slashfree (split l) = true.
Proof.
  induction l as [|c l IH]; [reflexivity|].
  simpl. destruct (Ascii.eqb c "/") eqn:Hc.
  - simpl. exact IH.
  - destruct (split l) as [|e es]; simpl in *.
    + unfold slashfree; simpl. now rewrite Hc.
    + apply andb_true_iff in IH as [He Hes].
      rewrite Hes, andb_true_r. apply slashfree_cons. now split.
Qed.

Lemma split_app_slash x y :
  split (x ++ "/"%char :: y) = split x ++ split y.
Proof.
  induction x as [|c x IH]; [reflexivity|].
  simpl. rewrite IH. destruct (Ascii.eqb c "/"); [reflexivity|].
  pose proof (split_not_nil x) as Hn.
  destruct (split x) as [|e es]; [congruence|reflexivity].
Qed.

Lemma join_snoc es e :
  es <> [] -> join (es ++ [e]) = join es ++ "/"%char :: e.
Proof.
  induction es as [|e0 es IH]; intros Hne; [congruence|].
  destruct es as [|e1 es]; [reflexivity|].
  change ((e0 :: e1 :: es) ++ [e]) with (e0 :: (e1 :: es) ++ [e]).
  change ((e1 :: es) ++ [e]) with (e1 :: es ++ [e]) at 1.
  rewrite join_cons_cons. change (e1 :: es ++ [e]) with ((e1 :: es) ++ [e]).
  rewrite IH by discriminate. rewrite join_cons_cons, <- app_assoc. reflexivity.
Qed.


(** *** The main loop, element by element *)

Lemma at_end_scan rooted inelem t st :
  at_end t = true -> scan rooted inelem t st = scan rooted false (tl t) st.
Proof.
  destruct t as [|c t]; simpl; intros H; [reflexivity|now rewrite H].
Qed.

Lemma scan_false_at_end rooted t st :
  at_end t = true -> scan rooted false (tl t) st = scan rooted false t st.
Proof. intros H. symmetry. now apply at_end_scan. Qed.

Lemma at_end_app_slashfree c e t :
  slashfree (c :: e) = true -> at_end ((c :: e) ++ t) = false.
Proof. intros H. apply slashfree_cons in H as [Hc _]. exact Hc. Qed.

(** The copy loop of the default case writes the rest of the element. *)
Lemma scan_copy rooted e t st :
  at_end t = true -> slashfree e = true ->
  scan rooted true (e ++ t) st = scan rooted false t (put_all e st).
Proof.
  intros Ht. revert st.
  induction e as [|c e IH]; intros st He.
  - simpl. rewrite (at_end_scan _ true) by assumption.
    now apply scan_false_at_end.
  - apply slashfree_cons in He as [Hc He].
    simpl. rewrite Hc. apply IH. exact He.
Qed.

(** One iteration of the main loop consumes one element. *)
Lemma scan_elem rooted e t st :
  at_end t = true -> slashfree e = true ->
  scan rooted false (e ++ t) st = scan rooted false t (elem rooted e st).
Proof.
  intros Ht He.
  destruct e as [|c e1]; [reflexivity|].
  pose proof He as Hall.
  apply slashfree_cons in He as [Hc He1].
  change ((c :: e1) ++ t) with (c :: (e1 ++ t)).
  cbn [scan]. rewrite Hc.
  destruct e1 as [|c2 e2].
  - (* a one-byte element *)
    cbn [List.app]. rewrite Ht, andb_true_r.
    unfold elem, is_dot, is_dotdot.
    destruct (Ascii.eqb c ".") eqn:Hdot.
    + reflexivity.
    + destruct t as [|c' t'].
      * reflexivity.
      * cbn [at_end] in Ht. simpl. rewrite Ht. reflexivity.
  - rewrite (at_end_app_slashfree c2 e2 t He1), andb_false_r.
    change ((c2 :: e2) ++ t) with (c2 :: (e2 ++ t)). cbv iota.
    apply slashfree_cons in He1 as [Hc2 He2].
    destruct e2 as [|c3 e3].
    + (* a two-byte element *)
      cbn [List.app]. rewrite Ht, andb_true_r.
      unfold elem, is_dot, is_dotdot.
      destruct (Ascii.eqb c "." && Ascii.eqb c2 ".") eqn:Hdd.
      * reflexivity.
      * change (c2 :: t) with ([c2] ++ t).
        rewrite scan_copy; [reflexivity|assumption|].
        unfold slashfree; simpl. now rewrite Hc2.
    + rewrite (at_end_app_slashfree c3 e3 t He2), andb_false_r.
      change (c2 :: (c3 :: e3) ++ t) with ((c2 :: c3 :: e3) ++ t).
      rewrite scan_copy; [reflexivity|assumption|].
      apply slashfree_cons. now split.
Qed.

Lemma scan_join rooted es st :
  es <> [] -> forallb slashfree es = true ->
  scan rooted false (join es) st = fold_left (fun s e => elem rooted e s) es st.
Proof.
  revert st. induction es as [|e es IH]; intros st Hne H; [congruence|].
  simpl in H. apply andb_true_iff in H as [He Hes].
  destruct es as [|e' es'].
  - simpl. rewrite <- (app_nil_r e) at 1.
    now rewrite scan_elem.
  - rewrite join_cons_cons.
    rewrite scan_elem by (assumption || reflexivity).
    cbn [scan]. change (Ascii.eqb "/" "/") with true. cbv iota.
    rewrite IH by (assumption || discriminate). reflexivity.
Qed.

(** The main loop is a fold of [elem] over the elements of its input. *)
Lemma scan_split rooted l st :
  scan rooted false l st = fold_left (fun s e => elem rooted e s) (split l) st.
Proof.
  rewrite <- (join_split l) at 1.
  apply scan_join; [apply split_not_nil|apply split_slashfree].
Qed.


(** *** Backtracking over the last element *)

Lemma slashfree_nth e n :
  slashfree e = true -> n < length e -> Ascii.eqb (nth n e zero) "/" = false.
Proof.
  intros He Hn. unfold slashfree in He. rewrite forallb_forall in He.
  apply negb_true_iff, He, nth_In, Hn.
Qed.

(** From inside the last element, the loop walks back to the slash in
    front of it. *)
Lemma backtrack_slash a e d n :
  slashfree e = true -> d <= length a -> n <= length e ->
  backtrack (a ++ "/"%char :: e) d (length a + n) = length a.
Proof.
  intros He Hd. induction n as [|n IH]; intros Hn.
  - rewrite Nat.add_0_r. destruct (length a) as [|m] eqn:E; [reflexivity|].
    cbn [backtrack]. rewrite <- E, app_nth2, Nat.sub_diag by lia.
    cbn [nth]. change (Ascii.eqb "/" "/") with true.
    now rewrite andb_false_r.
  - rewrite Nat.add_succ_r. cbn [backtrack].
    rewrite <- Nat.add_succ_r.
    rewrite app_nth2 by lia.
    replace (length a + S n - length a) with (S n) by lia.
    cbn [nth]. rewrite slashfree_nth by (assumption || lia).
    replace (d <? length a + S n) with true by (symmetry; apply Nat.ltb_lt; lia).
    cbn [andb negb]. apply IH. lia.
Qed.

(** When the last element starts at [dotdot], the loop stops there. *)
Lemma backtrack_edge a e n :
  slashfree e = true -> n < length e ->
  backtrack (a ++ e) (length a) (length a + n) = length a.
Proof.
  intros He. induction n as [|n IH]; intros Hn.
  - rewrite Nat.add_0_r. destruct (length a) as [|m] eqn:E; [reflexivity|].
    cbn [backtrack]. rewrite Nat.ltb_irrefl. reflexivity.
  - rewrite Nat.add_succ_r. cbn [backtrack].
    rewrite <- Nat.add_succ_r.
    rewrite app_nth2 by lia.
    replace (length a + S n - length a) with (S n) by lia.
    rewrite slashfree_nth by (assumption || lia).
    replace (length a <? length a + S n) with true
      by (symmetry; apply Nat.ltb_lt; lia).
    cbn [andb negb]. apply IH. lia.
Qed.


(** *** The buffer as a list of elements *)

Lemma real_inv e :
  real e = true ->
  nonnil e = true /\ slashfree e = true /\ is_dot e = false /\ is_dotdot e = false.
Proof.
  unfold real, nonnil. rewrite !andb_true_iff, !negb_true_iff. tauto.
Qed.

Lemma nonnil_length e : nonnil e = true -> 0 < length e.
Proof.
  unfold nonnil. rewrite negb_true_iff, Nat.eqb_neq. lia.
Qed.

Lemma forallb_real_nonnil es :
  forallb real es = true -> forallb nonnil es = true.
Proof.
  rewrite !forallb_forall. intros H e He. now apply real_inv, H.
Qed.

Lemma forallb_real_slashfree es :
  forallb real es = true -> forallb slashfree es = true.
Proof.
  rewrite !forallb_forall. intros H e He. now apply real_inv, H.
Qed.

Lemma forallb_repeat {A} (f : A -> bool) x n :
  f x = true -> forallb f (repeat x n) = true.
Proof.
  intros H. induction n as [|n IH]; simpl; [reflexivity|now rewrite H].
Qed.

Lemma join_app es1 es2 :
  es1 <> [] -> es2 <> [] ->
  join (es1 ++ es2) = join es1 ++ "/"%char :: join es2.
Proof.
  induction es1 as [|e es1 IH]; intros H1 H2; [congruence|].
  destruct es1 as [|e1 es1].
  - destruct es2; [congruence|reflexivity].
  - change ((e :: e1 :: es1) ++ es2) with (e :: e1 :: (es1 ++ es2)).
    rewrite join_cons_cons.
    change (e1 :: es1 ++ es2) with ((e1 :: es1) ++ es2).
    rewrite IH by (assumption || discriminate).
    rewrite join_cons_cons, <- app_assoc. reflexivity.
Qed.

Lemma join_nonnil es :
  es <> [] -> forallb nonnil es = true -> 0 < length (join es).
Proof.
  destruct es as [|e es]; [congruence|]. intros _ H.
  simpl in H. apply andb_true_iff in H as [He _].
  apply nonnil_length in He.
  destruct es; simpl; [assumption|]. rewrite length_app. lia.
Qed.

Lemma join_app_length es1 es2 :
  length (join es1) <= length (join (es1 ++ es2)).
Proof.
  destruct es1 as [|e es1]; [simpl; lia|].
  destruct es2 as [|e2 es2]; [rewrite app_nil_r; lia|].
  rewrite join_app by discriminate. rewrite length_app. lia.
Qed.

Lemma firstn_length_app {A} (a b : list A) : firstn (length a) (a ++ b) = a.
Proof. induction a as [|x a IH]; simpl; [reflexivity|now rewrite IH]. Qed.

Lemma put_all_mkc e b d : put_all e (mkc b d) = mkc (b ++ e) d.
Proof.
  unfold put_all. revert b. induction e as [|c e IH]; intros b; cbn [fold_left].
  - now rewrite app_nil_r.
  - change (append c (mkc b d)) with (mkc (b ++ [c]) d).
    rewrite IH, <- app_assoc. reflexivity.
Qed.

Lemma stop_root rooted : stop rooted 0 = length (root rooted).
Proof. now destruct rooted. Qed.

Lemma stop_le rooted k es :
  stop rooted k <= length (root rooted ++ join (repeat dd k ++ es)).
Proof.
  rewrite length_app. destruct rooted; simpl; [lia|apply join_app_length].
Qed.

(** A [..] element after a real element removes it. *)
Lemma elem_dotdot_pop rooted k es e :
  (rooted = true -> k = 0) ->
  nonnil e = true -> slashfree e = true ->
  elem_dotdot rooted
    (mkc (root rooted ++ join (repeat dd k ++ es ++ [e])) (stop rooted k))
  = mkc (root rooted ++ join (repeat dd k ++ es)) (stop rooted k).
Proof.
  intros Hk Hn He. apply nonnil_length in Hn.
  unfold elem_dotdot. cbn [buf dotdot].
  rewrite app_assoc.
  destruct (repeat dd k ++ es) as [|y ys] eqn:EY.
  - assert (k = 0) as -> by (destruct k; [reflexivity|discriminate]).
    cbn [List.app join]. rewrite stop_root, app_nil_r, length_app.
    replace (length (root rooted) <? length (root rooted) + length e) with true
      by (symmetry; apply Nat.ltb_lt; lia).
    replace (length (root rooted) + length e - 1)
      with (length (root rooted) + (length e - 1)) by lia.
    rewrite backtrack_edge by (assumption || lia).
    now rewrite firstn_length_app.
  - rewrite join_snoc by discriminate.
    rewrite <- EY, app_assoc.
    pose proof (stop_le rooted k es) as Hle.
    set (a := root rooted ++ join (repeat dd k ++ es)) in *.
    rewrite length_app. cbn [length].
    replace (stop rooted k <? length a + S (length e)) with true
      by (symmetry; apply Nat.ltb_lt; lia).
    replace (length a + S (length e) - 1) with (length a + length e) by lia.
    rewrite backtrack_slash by (assumption || lia).
    now rewrite firstn_length_app.
Qed.

(** A [..] element with no real element before it: kept on a path that is
    not rooted, dropped on a rooted one. *)
Lemma elem_dotdot_up k :
  elem_dotdot false (mkc (root false ++ join (repeat dd k ++ [])) (stop false k))
  = mkc (root false ++ join (repeat dd (S k) ++ [])) (stop false (S k)).
Proof.
  unfold elem_dotdot, stop, root. cbn [buf dotdot List.app negb].
  rewrite !app_nil_r, Nat.ltb_irrefl.
  assert (E : repeat dd (S k) = repeat dd k ++ [dd])
    by (apply (repeat_cons k dd)).
  rewrite E.
  destruct k as [|k].
  - reflexivity.
  - assert (0 < length (join (repeat dd (S k)))) as Hpos.
    { apply join_nonnil; [discriminate|]. now apply forallb_repeat. }
    replace (0 <? length (join (repeat dd (S k)))) with true
      by (symmetry; now apply Nat.ltb_lt).
    rewrite join_snoc by discriminate.
    unfold append. cbn [buf dotdot]. rewrite <- !app_assoc. reflexivity.
Qed.

Lemma elem_dotdot_root :
  elem_dotdot true (mkc (root true ++ join (repeat dd 0 ++ [])) (stop true 0))
  = mkc (root true ++ join (repeat dd 0 ++ [])) (stop true 0).
Proof. reflexivity. Qed.

(** A real element is appended, after a slash when it is not the first. *)
Lemma elem_real_push rooted k es e :
  forallb nonnil es = true ->
  fold_left (fun s c => append c s) e
    (elem_begin rooted (mkc (root rooted ++ join (repeat dd k ++ es)) (stop rooted k)))
  = mkc (root rooted ++ join (repeat dd k ++ es ++ [e])) (stop rooted k).
Proof.
  intros Hes. fold (put_all e).
  assert (Hall : forallb nonnil (repeat dd k ++ es) = true).
  { rewrite forallb_app, Hes, andb_true_r. now apply forallb_repeat. }
  rewrite (app_assoc (repeat dd k)).
  unfold elem_begin. cbn [buf dotdot].
  destruct (repeat dd k ++ es) as [|y ys] eqn:EY.
  - cbn [List.app join]. rewrite app_nil_r.
    replace ((rooted && negb (length (root rooted) =? 1))
             || (negb rooted && negb (length (root rooted) =? 0))) with false
      by (now destruct rooted).
    now rewrite put_all_mkc.
  - assert (Hpos : 0 < length (join (y :: ys)))
      by (apply join_nonnil; [discriminate|assumption]).
    replace ((rooted && negb (length (root rooted ++ join (y :: ys)) =? 1))
             || (negb rooted && negb (length (root rooted ++ join (y :: ys)) =? 0)))
      with true.
    2:{ symmetry. rewrite length_app.
        destruct rooted; cbn [root length andb orb negb Nat.add];
          rewrite ?orb_false_r; apply negb_true_iff, Nat.eqb_neq; lia. }
    unfold append. cbn [buf dotdot]. rewrite put_all_mkc.
    rewrite join_snoc by discriminate.
    rewrite <- !app_assoc. reflexivity.
Qed.


(** *** [scan] computes [norm] *)

Lemma repr_eq rooted a :
  repr rooted a
  = mkc (root rooted ++ join (repeat dd (ups a) ++ rev (elems a)))
        (stop rooted (ups a)).
Proof. reflexivity. Qed.

Lemma forallb_rev {A} (f : A -> bool) l :
  forallb f l = true -> forallb f (rev l) = true.
Proof.
  rewrite !forallb_forall. intros H x Hx. apply H. now apply in_rev.
Qed.

Lemma elem_repr rooted a e :
  wf rooted a -> slashfree e = true ->
  elem rooted e (repr rooted a) = repr rooted (astep rooted a e).
Proof.
  intros [Hk Hes] He.
  destruct e as [|c e']; [reflexivity|].
  unfold elem, astep.
  destruct (is_dot (c :: e')); [reflexivity|].
  destruct (is_dotdot (c :: e')).
  - destruct a as [k es]. cbn [ups elems] in *.
    destruct es as [|r es].
    + destruct rooted.
      * rewrite (Hk eq_refl). apply elem_dotdot_root.
      * apply elem_dotdot_up.
    + cbn [forallb] in Hes. apply andb_true_iff in Hes as [Hr _].
      apply real_inv in Hr as (Hn & Hs & _).
      rewrite !repr_eq. cbn [ups elems rev].
      now apply elem_dotdot_pop.
  - rewrite !repr_eq. cbn [ups elems rev].
    apply elem_real_push.
    now apply forallb_rev, forallb_real_nonnil.
Qed.

Lemma astep_wf rooted a e :
  wf rooted a -> slashfree e = true -> wf rooted (astep rooted a e).
Proof.
  intros [Hk Hes] He.
  destruct e as [|c e']; [now split|].
  unfold astep.
  destruct (is_dot (c :: e')) eqn:Hd; [now split|].
  destruct (is_dotdot (c :: e')) eqn:Hdd.
  - destruct (elems a) as [|r es] eqn:E.
    + destruct rooted; split; cbn [ups elems]; try assumption; try reflexivity.
      * now rewrite E.
      * discriminate.
    + split; cbn [ups elems]; [assumption|].
      cbn [forallb] in Hes. now apply andb_true_iff in Hes.
  - split; cbn [ups elems]; [assumption|].
    cbn [forallb]. rewrite Hes, andb_true_r.
    unfold real. rewrite He, Hd, Hdd. reflexivity.
Qed.

Lemma fold_astep_wf rooted es a :
  wf rooted a -> forallb slashfree es = true ->
  wf rooted (fold_left (astep rooted) es a).
Proof.
  revert a. induction es as [|e es IH]; intros a Ha H; [assumption|].
  cbn [forallb] in H. apply andb_true_iff in H as [He Hes].
  cbn [fold_left]. apply IH; [now apply astep_wf|assumption].
Qed.

Lemma fold_elem_repr rooted es a :
  wf rooted a -> forallb slashfree es = true ->
  fold_left (fun s e => elem rooted e s) es (repr rooted a)
  = repr rooted (fold_left (astep rooted) es a).
Proof.
  revert a. induction es as [|e es IH]; intros a Ha H; [reflexivity|].
  cbn [forallb] in H. apply andb_true_iff in H as [He Hes].
  cbn [fold_left]. rewrite elem_repr by assumption.
  apply IH; [now apply astep_wf|assumption].
Qed.

Lemma wf_init rooted : wf rooted (mka 0 []).
Proof. now split. Qed.

Lemma norm_wf rooted l : wf rooted (norm rooted (split l)).
Proof. apply fold_astep_wf; [apply wf_init|apply split_slashfree]. Qed.

Lemma scan_norm rooted l :
  scan rooted false l (repr rooted (mka 0 []))
  = repr rooted (norm rooted (split l)).
Proof.
  rewrite scan_split. apply fold_elem_repr; [apply wf_init|apply split_slashfree].
Qed.

(** [Clean] of a rooted path. *)
Lemma clean_rooted rest :
  clean ("/"%char :: rest) = buf (repr true (norm true (split rest))).
Proof.
  unfold clean. change (Ascii.eqb "/" "/") with true. cbv iota.
  change (mkc ["/"%char] 1) with (repr true (mka 0 [])).
  rewrite scan_norm. reflexivity.
Qed.

(** [Clean] of a path that is not rooted. *)
Lemma clean_unrooted c rest :
  Ascii.eqb c "/" = false ->
  clean (c :: rest)
  = let b := buf (repr false (norm false (split (c :: rest)))) in
    if length b =? 0 then ["."%char] else b.
Proof.
  intros Hc. unfold clean. rewrite Hc.
  change (mkc [] 0) with (repr false (mka 0 [])).
  rewrite scan_norm. reflexivity.
Qed.

(** *** The normal form is a fixed point *)

Lemma fold_astep_real rooted es a :
  forallb real es = true ->
  fold_left (astep rooted) es a = mka (ups a) (rev es ++ elems a).
Proof.
  revert a. induction es as [|e es IH]; intros a H.
  - now destruct a.
  - cbn [forallb] in H. apply andb_true_iff in H as [He Hes].
    cbn [fold_left]. rewrite IH by assumption.
    apply real_inv in He as (Hn & _ & Hd & Hdd).
    unfold astep. rewrite Hd, Hdd.
    destruct e as [|c e']; [discriminate|].
    cbn [ups elems rev]. rewrite <- app_assoc. reflexivity.
Qed.

Lemma fold_astep_ups k j :
  fold_left (astep false) (repeat dd k) (mka j []) = mka (k + j) [].
Proof.
  revert j. induction k as [|k IH]; intros j; [reflexivity|].
  cbn [repeat fold_left]. change (astep false (mka j []) dd) with (mka (S j) []).
  rewrite IH. f_equal. lia.
Qed.

Lemma norm_normal rooted a :
  wf rooted a ->
  fold_left (astep rooted) (repeat dd (ups a) ++ rev (elems a)) (mka 0 []) = a.
Proof.
  intros [Hk Hes]. rewrite fold_left_app.
  assert (E : fold_left (astep rooted) (repeat dd (ups a)) (mka 0 []) = mka (ups a) []).
  { destruct rooted.
    - now rewrite (Hk eq_refl).
    - rewrite fold_astep_ups. f_equal. lia. }
  rewrite E, fold_astep_real by now apply forallb_rev.
  cbn [ups elems]. rewrite rev_involutive, app_nil_r. now destruct a.
Qed.

Lemma elements_slashfree rooted a :
  wf rooted a ->
  forallb slashfree (repeat dd (ups a) ++ rev (elems a)) = true.
Proof.
  intros [_ Hes]. rewrite forallb_app. apply andb_true_iff. split.
  - now apply forallb_repeat.
  - now apply forallb_rev, forallb_real_slashfree.
Qed.

Lemma elements_nonnil rooted a :
  wf rooted a ->
  forallb nonnil (repeat dd (ups a) ++ rev (elems a)) = true.
Proof.
  intros [_ Hes]. rewrite forallb_app. apply andb_true_iff. split.
  - now apply forallb_repeat.
  - now apply forallb_rev, forallb_real_nonnil.
Qed.

Lemma join_head es :
  es <> [] -> forallb nonnil es = true -> forallb slashfree es = true ->
  exists c l, join es = c :: l /\ Ascii.eqb c "/" = false.
Proof.
  destruct es as [|e es]; [congruence|]. intros _ Hn Hs.
  cbn [forallb] in Hn, Hs.
  apply andb_true_iff in Hn as [Hn _]. apply andb_true_iff in Hs as [Hs _].
  destruct e as [|c e']; [discriminate|].
  apply slashfree_cons in Hs as [Hc _].
  destruct es as [|e1 es].
  - exists c, e'. now split.
  - exists c, (e' ++ "/"%char :: join (e1 :: es)). now split.
Qed.

(** Cleaning the buffer of a normal form gives it back. *)
Lemma clean_repr rooted a :
  wf rooted a -> buf (repr rooted a) <> [] ->
  clean (buf (repr rooted a)) = buf (repr rooted a).
Proof.
  intros Ha Hne.
  pose proof (elements_slashfree rooted a Ha) as Hs.
  pose proof (elements_nonnil rooted a Ha) as Hn.
  pose proof (norm_normal rooted a Ha) as Hnorm.
  rewrite repr_eq in *. cbn [buf] in *.
  set (es := repeat dd (ups a) ++ rev (elems a)) in *.
  destruct rooted; cbn [root List.app] in *.
  - rewrite clean_rooted. unfold norm.
    destruct es as [|y ys] eqn:E.
    + reflexivity.
    + rewrite split_join by (assumption || discriminate).
      rewrite Hnorm. rewrite repr_eq. cbn [buf root List.app].
      fold es. rewrite E. reflexivity.
  - assert (Hes : es <> []) by (intros E; rewrite E in Hne; now apply Hne).
    destruct (join_head es Hes Hn Hs) as (c & l & Ej & Hc).
    rewrite Ej. rewrite clean_unrooted by assumption.
    rewrite <- Ej. unfold norm. rewrite split_join by assumption.
    rewrite Hnorm. rewrite repr_eq. cbn [buf root List.app]. fold es.
    rewrite Ej. reflexivity.
Qed.

Lemma clean_not_nil p : clean p <> [].
Proof.
  unfold clean. destruct p as [|c rest]; [discriminate|].
  cbv zeta.
  destruct (length (buf _) =? 0) eqn:E; [discriminate|].
  intros H. rewrite H in E. discriminate.
Qed.

(** [Clean] is idempotent on byte sequences. *)
Lemma clean_idem p : clean (clean p) = clean p.
Proof.
  destruct p as [|c rest]; [reflexivity|].
  destruct (Ascii.eqb_spec c "/") as [->|Hc].
  - rewrite clean_rooted. apply clean_repr; [apply norm_wf|].
    rewrite repr_eq. discriminate.
  - apply Ascii.eqb_neq in Hc. rewrite clean_unrooted by assumption.
    cbv zeta.
    destruct (length (buf _) =? 0) eqn:E; [reflexivity|].
    apply clean_repr; [apply norm_wf|].
    intros H. rewrite H in E. discriminate.
Qed.

(** *** Appending real elements to a path *)

Lemma norm_app rooted es1 es2 :
  norm rooted (es1 ++ es2) = fold_left (astep rooted) es2 (norm rooted es1).
Proof. apply fold_left_app. Qed.

Lemma cleaned_slashfree x : forallb slashfree (cleaned x) = true.
Proof. apply (elements_slashfree false), norm_wf. Qed.

(** Cleaning [x/s], for [x] not rooted and [s] made of real elements only,
    keeps the elements of [s] behind the cleaned form of [x]. *)
Lemma clean_append_real c x s :
  Ascii.eqb c "/" = false -> forallb real (split s) = true ->
  clean ((c :: x) ++ "/"%char :: s) = join (cleaned (c :: x) ++ split s).
Proof.
  intros Hc Hs.
  change ((c :: x) ++ "/"%char :: s) with (c :: (x ++ "/"%char :: s)).
  rewrite clean_unrooted by assumption.
  change (c :: (x ++ "/"%char :: s)) with ((c :: x) ++ "/"%char :: s).
  rewrite split_app_slash, norm_app, fold_astep_real by assumption.
  rewrite repr_eq. cbn [buf ups elems root List.app]. cbv zeta.
  rewrite rev_app_distr, rev_involutive, app_assoc. fold (cleaned (c :: x)).
  assert (Hpos : 0 < length (join (cleaned (c :: x) ++ split s))).
  { apply join_nonnil.
    - pose proof (split_not_nil s). destruct (cleaned (c :: x)); [assumption|discriminate].
    - rewrite forallb_app. apply andb_true_iff. split.
      + apply (elements_nonnil false), norm_wf.
      + now apply forallb_real_nonnil. }
  destruct (length _ =? 0) eqn:E; [|reflexivity].
  apply Nat.eqb_eq in E. lia.
Qed.

Lemma clean_append_real_inj c x s1 s2 :
  Ascii.eqb c "/" = false ->
  forallb real (split s1) = true -> forallb real (split s2) = true ->
  clean ((c :: x) ++ "/"%char :: s1) = clean ((c :: x) ++ "/"%char :: s2) ->
  s1 = s2.
Proof.
  intros Hc H1 H2 E.
  rewrite !clean_append_real in E by assumption.
  apply (f_equal split) in E.
  pose proof (cleaned_slashfree (c :: x)) as Hx.
  rewrite !split_join in E.
  - apply app_inv_head in E.
    rewrite <- (join_split s1), <- (join_split s2). now f_equal.
  - pose proof (split_not_nil s2). destruct (cleaned (c :: x)); [assumption|discriminate].
  - rewrite forallb_app, Hx. now apply forallb_real_slashfree.
  - pose proof (split_not_nil s1). destruct (cleaned (c :: x)); [assumption|discriminate].
  - rewrite forallb_app, Hx. now apply forallb_real_slashfree.
Qed.

End path_facts.

Module upstream_facts.
Import path path_facts upstream.

Lemma string_of_list_ascii_inj l1 l2 :
  string_of_list_ascii l1 = string_of_list_ascii l2 -> l1 = l2.
Proof.
  intros H. apply (f_equal list_ascii_of_string) in H.
  now rewrite !list_ascii_of_string_of_list_ascii in H.
Qed.

Lemma list_ascii_of_string_inj s1 s2 :
  list_ascii_of_string s1 = list_ascii_of_string s2 -> s1 = s2.
Proof.
  intros H. apply (f_equal string_of_list_ascii) in H.
  now rewrite !string_of_list_ascii_of_string in H.
Qed.

(** *** [path.Join] with a non-empty first element *)

Lemma join_buf_nonempty b rest :
  b <> [] ->
  join_buf b rest
  = b ++ flat_map (fun e => "/"%char :: list_ascii_of_string e) rest.
Proof.
  revert b. induction rest as [|e rest IH]; intros b Hb.
  - cbn. now rewrite app_nil_r.
  - cbn [join_buf flat_map].
    destruct b as [|c b]; [congruence|].
    cbn [length Nat.ltb Nat.leb orb]. cbv zeta.
    rewrite IH by discriminate.
    cbn [List.app]. rewrite <- !app_assoc. reflexivity.
Qed.

Lemma fold_length_pos l n :
  (fold_left (fun n e => n + String.length e) l (S n) =? 0) = false.
Proof.
  revert n. induction l as [|x l IH]; intros n; [reflexivity|].
  cbn [fold_left]. rewrite Nat.add_succ_l. apply IH.
Qed.

Lemma Join_first c a rest :
  Join (String c a :: rest)
  = string_of_list_ascii
      (clean (c :: list_ascii_of_string a
                ++ flat_map (fun e => "/"%char :: list_ascii_of_string e) rest)).
Proof.
  unfold Join. cbn [fold_left String.length Nat.add].
  rewrite fold_length_pos.
  cbn [join_buf list_ascii_of_string length Nat.ltb Nat.leb Nat.eqb orb negb List.app].
  cbv zeta. rewrite join_buf_nonempty by discriminate. reflexivity.
Qed.

(** *** Decimal indices *)

Lemma string_of_uint_digits d :
  forallb is_digit (list_ascii_of_string (NilEmpty.string_of_uint d)) = true.
Proof. induction d; cbn; auto. Qed.

Lemma itoa_digits n : forallb is_digit (list_ascii_of_string (itoa n)) = true.
Proof.
  unfold itoa, NilZero.string_of_uint.
  destruct (Nat.to_uint n) eqn:E; try (rewrite <- E; apply string_of_uint_digits).
  reflexivity.
Qed.

Lemma to_uint_not_nil n : Nat.to_uint n <> Decimal.Nil.
Proof.
  rewrite <- (DecimalNat.Unsigned.of_to n) at 1.
  rewrite DecimalNat.Unsigned.to_of. apply DecimalFacts.unorm_nonnil.
Qed.

Lemma itoa_not_empty n : itoa n <> EmptyString.
Proof.
  unfold itoa. pose proof (to_uint_not_nil n) as H.
  destruct (Nat.to_uint n); try congruence; discriminate.
Qed.

Lemma itoa_inj n m : itoa n = itoa m -> n = m.
Proof.
  intros H. unfold itoa in H.
  apply (f_equal NilZero.uint_of_string) in H.
  rewrite !NilZero.usu in H by apply to_uint_not_nil.
  injection H as H. now apply DecimalNat.Unsigned.to_uint_inj.
Qed.

Lemma digit_not_slash c : is_digit c = true -> Ascii.eqb c "/" = false.
Proof.
  destruct c as [[] [] [] [] [] [] [] []]; (discriminate || reflexivity).
Qed.

Lemma digit_not_dot c : is_digit c = true -> Ascii.eqb c "." = false.
Proof.
  destruct c as [[] [] [] [] [] [] [] []]; (discriminate || reflexivity).
Qed.

Lemma digits_real e :
  e <> [] -> forallb is_digit e = true -> real e = true.
Proof.
  intros Hne H. unfold real.
  assert (Hs : slashfree e = true).
  { unfold slashfree. rewrite forallb_forall in *. intros c Hc.
    apply negb_true_iff, digit_not_slash, H, Hc. }
  rewrite Hs.
  destruct e as [|c e]; [congruence|].
  cbn [forallb] in H. apply andb_true_iff in H as [Hc _].
  apply digit_not_dot in Hc.
  unfold is_dot, is_dotdot. rewrite Hc.
  destruct e as [|c2 [|c3 e]]; reflexivity.
Qed.

Lemma itoa_real n : real (list_ascii_of_string (itoa n)) = true.
Proof.
  apply digits_real; [|apply itoa_digits].
  intros H. apply (itoa_not_empty n).
  apply list_ascii_of_string_inj. exact H.
Qed.

(** *** Branch names as cleaned byte sequences *)

Lemma baseBranch_bytes src buildid :
  baseBranch src buildid
  = string_of_list_ascii
      (clean (("c"%char :: ck_prefix buildid "base")
                ++ "/"%char :: list_ascii_of_string (Name src))).
Proof.
  unfold baseBranch. rewrite Join_first. do 2 f_equal.
  unfold ck_prefix. cbn [flat_map List.app].
  rewrite app_nil_r, <- !app_assoc. cbn [List.app].
  rewrite <- !app_assoc. reflexivity.
Qed.

Lemma mapBranch_bytes src buildid mapid :
  mapBranch src buildid mapid
  = string_of_list_ascii
      (clean (("c"%char :: ck_prefix buildid "map")
                ++ "/"%char :: (list_ascii_of_string (Name src)
                                  ++ "/"%char :: list_ascii_of_string (itoa mapid)))).
Proof.
  unfold mapBranch. rewrite Join_first. do 2 f_equal.
  unfold ck_prefix. cbn [flat_map List.app].
  rewrite app_nil_r, <- !app_assoc. cbn [List.app].
  rewrite <- !app_assoc. reflexivity.
Qed.

Lemma mapBranch_bytes_index src buildid mapid :
  mapBranch src buildid mapid
  = string_of_list_ascii
      (clean (("c"%char :: ck_prefix buildid "map" ++ "/"%char :: list_ascii_of_string (Name src))
                ++ "/"%char :: list_ascii_of_string (itoa mapid))).
Proof.
  rewrite mapBranch_bytes. do 2 f_equal.
  cbn [List.app]. rewrite <- !app_assoc. reflexivity.
Qed.

Lemma split_itoa n :
  split (list_ascii_of_string (itoa n)) = [list_ascii_of_string (itoa n)].
Proof.
  apply split_slashfree_elem. now apply real_inv, itoa_real.
Qed.

Lemma name_index_real n i :
  name_ok n = true ->
  forallb real (split (list_ascii_of_string n ++ "/"%char :: list_ascii_of_string (itoa i)))
  = true.
Proof.
  intros H. rewrite split_app_slash, split_itoa, forallb_app.
  unfold name_ok in H. rewrite H. cbn. now rewrite itoa_real.
Qed.

(** *** Cleaning at the level of strings *)

Lemma Clean_not_empty p : Clean p <> EmptyString.
Proof.
  unfold Clean. intros H.
  apply (clean_not_nil (list_ascii_of_string p)).
  apply string_of_list_ascii_inj. exact H.
Qed.

Lemma Clean_eqb_empty p : (Clean p =? "")%string = false.
Proof. apply String.eqb_neq, Clean_not_empty. Qed.

Lemma Clean_idem p : Clean (Clean p) = Clean p.
Proof.
  unfold Clean. rewrite list_ascii_of_string_of_list_ascii.
  now rewrite clean_idem.
Qed.

(** *** Standard error is written by [log.Fatal] only *)

Lemma bind_stderr {A B} (m : M A) (f : A -> M B) :
  (forall s, stderr (snd (m s)) = stderr s) ->
  (forall a s, stderr (snd (f a s)) = stderr s) ->
  forall s, stderr (snd (bind m f s)) = stderr s.
Proof.
  intros Hm Hf s. unfold bind. specialize (Hm s).
  destruct (m s) as [a s']. cbn [snd] in Hm. now rewrite Hf.
Qed.

Lemma printf_stderr o s : stderr (snd (printf o s)) = stderr s.
Proof. reflexivity. Qed.

Lemma ret_stderr {A} (a : A) s : stderr (snd (ret a s)) = stderr s.
Proof. reflexivity. Qed.

Lemma RandomString_stderr env s : stderr (snd (RandomString env s)) = stderr s.
Proof. reflexivity. Qed.

Lemma for_range_stderr {A} (body : nat -> A -> M unit) l :
  (forall i x s, stderr (snd (body i x s)) = stderr s) ->
  forall i s, stderr (snd (for_range i l body s)) = stderr s.
Proof.
  intros Hb. induction l as [|x l IH]; intros i s; [reflexivity|].
  cbn [for_range]. apply bind_stderr; [apply Hb|]. intros _ s'. apply IH.
Qed.

Ltac stderr_kept :=
  repeat first
    [ apply printf_stderr | apply ret_stderr | apply RandomString_stderr
    | apply bind_stderr; intros
    | apply for_range_stderr; intros
    | match goal with
      | |- context [if ?b then _ else _] => destruct b
      end ].

Lemma generate_stderr env buildid m s :
  stderr (snd (generate env buildid m s)) = stderr s.
Proof.
  unfold generate, for_each, fetch_source, fetch, map_source, apply_mapping,
    dupBranch, zoomIn, zoomOut, mergeLayer, apply_defaults.
  revert s. stderr_kept.
Qed.

(** *** Random tokens are hexadecimal *)

Lemma hexdigit_is_hex n : is_hexdigit (hexdigit n) = true.
Proof.
  unfold hexdigit. generalize (N.to_nat n) as k. intros k.
  do 16 (destruct k as [|k]; [reflexivity|]). 
  destruct k; reflexivity.
Qed.

(** *** Standard output only grows *)

Lemma bind_stdout {A B} (m : M A) (f : A -> M B) :
  (forall s, exists l, stdout (snd (m s)) = stdout s ++ l) ->
  (forall a s, exists l, stdout (snd (f a s)) = stdout s ++ l) ->
  forall s, exists l, stdout (snd (bind m f s)) = stdout s ++ l.
Proof.
  intros Hm Hf s. unfold bind. destruct (Hm s) as [l1 H1].
  destruct (m s) as [a s']. cbn [snd] in H1.
  destruct (Hf a s') as [l2 H2].
  exists (l1 ++ l2). now rewrite H2, H1, app_assoc.
Qed.

Lemma printf_stdout o s : exists l, stdout (snd (printf o s)) = stdout s ++ l.
Proof. now exists [o]. Qed.

Lemma ret_stdout {A} (a : A) s : exists l, stdout (snd (ret a s)) = stdout s ++ l.
Proof. exists []. cbn. now rewrite app_nil_r. Qed.

Lemma RandomString_stdout env s :
  exists l, stdout (snd (RandomString env s)) = stdout s ++ l.
Proof. exists []. cbn. now rewrite app_nil_r. Qed.

Lemma for_range_stdout {A} (body : nat -> A -> M unit) l :
  (forall i x s, exists o, stdout (snd (body i x s)) = stdout s ++ o) ->
  forall i s, exists o, stdout (snd (for_range i l body s)) = stdout s ++ o.
Proof.
  intros Hb. induction l as [|x l IH]; intros i s.
  - apply ret_stdout.
  - cbn [for_range]. apply bind_stdout; [apply Hb|]. intros _ s'. apply IH.
Qed.

Ltac stdout_grows :=
  repeat first
    [ apply printf_stdout | apply ret_stdout | apply RandomString_stdout
    | apply bind_stdout; intros
    | apply for_range_stdout; intros
    | match goal with
      | |- context [if ?b then _ else _] => destruct b
      end ].

Lemma generate_stdout env buildid m s :
  exists l, stdout (snd (generate env buildid m s)) = stdout s ++ l.
Proof.
  unfold generate, for_each, fetch_source, fetch, map_source, apply_mapping,
    dupBranch, zoomIn, zoomOut, mergeLayer, apply_defaults.
  revert s. stdout_grows.
Qed.

(** *** The shape of a run *)

(** The state in which [main] reaches the manifest: the header is printed
    and 32 random bytes are consumed. *)
Lemma run_eq toml_Decode env :
  let buildid := fst (new_buildid env (mkSt [] [] 0)) in
  let s0 := mkSt [Diag ("# Starting build " ++ buildid) 1; Sh SetE] [] 32 in
  run toml_Decode env
  = match os_Open env with
    | Err e => (Exit1, mkSt (stdout s0) [e] 32)
    | Ok (Err e) => (Exit1, mkSt (stdout s0) [e] 32)
    | Ok (Ok data) =>
        match toml_Decode data with
        | Err e => (Exit1, mkSt (stdout s0) [e] 32)
        | Ok m => (Exit0, snd (generate env buildid m s0))
        end
    end.
Proof.
  cbv zeta. unfold run, main.
  unfold bind at 1. destruct (new_buildid env (mkSt [] [] 0)) as [b s] eqn:E.
  assert (Hs : s = mkSt [] [] 32).
  { unfold new_buildid, bind, RandomString, ret in E. now injection E as _ <-. }
  subst s. cbn [fst].
  unfold bind at 1. cbn [printf stdout stderr rpos List.app].
  unfold bind at 1. cbn [printf stdout stderr rpos List.app].
  destruct (os_Open env) as [[data|e]|e]; try reflexivity.
  destruct (toml_Decode data) as [m|e]; try reflexivity.
  unfold bind, ret. now destruct (generate env b m _).
Qed.

(** *** Properties of every output item *)

Section OutputItems.

Variable P : Out -> bool.

Lemma bind_all {A B} (m : M A) (f : A -> M B) :
  all_out P m -> (forall a, all_out P (f a)) -> all_out P (bind m f).
Proof.
  intros Hm Hf s Hs. unfold bind. specialize (Hm s Hs).
  destruct (m s) as [a s']. now apply Hf.
Qed.

Lemma printf_all o : P o = true -> all_out P (printf o).
Proof.
  intros Ho s Hs. cbn [printf snd stdout].
  rewrite forallb_app, Hs. cbn. now rewrite Ho.
Qed.

Lemma ret_all {A} (a : A) : all_out P (ret a).
Proof. now intros s Hs. Qed.

Lemma RandomString_all env : all_out P (RandomString env).
Proof. now intros s Hs. Qed.

Lemma for_range_all {A} (body : nat -> A -> M unit) l :
  (forall i x, all_out P (body i x)) -> forall i, all_out P (for_range i l body).
Proof.
  intros Hb. induction l as [|x l IH]; intros i.
  - apply ret_all.
  - cbn [for_range]. apply bind_all; [apply Hb|]. intros _. apply IH.
Qed.

End OutputItems.

Ltac all_items :=
  repeat first
    [ apply ret_all | apply RandomString_all
    | apply printf_all; reflexivity
    | apply bind_all; intros
    | apply for_range_all; intros
    | match goal with
      | |- context [if ?b then _ else _] => destruct b
      end ].

Lemma generate_comment_or_skip env buildid m :
  all_out comment_or_skip (generate env buildid m).
Proof.
  unfold generate, for_each, fetch_source, fetch, map_source, apply_mapping,
    dupBranch, zoomIn, zoomOut, mergeLayer, apply_defaults.
  all_items.
Qed.

(** *** Counting zoom-out commands *)

Lemma zoomOuts_printf o s :
  zoomOuts (snd (printf o s))
  = zoomOuts s + length (filter is_zoomOut (commands [o])).
Proof.
  unfold zoomOuts, commands. cbn [printf snd stdout].
  now rewrite flat_map_app, filter_app, length_app.
Qed.

Lemma zoomOuts_bind {A B} (m : M A) (f : A -> M B) j k :
  (forall s, zoomOuts (snd (m s)) = zoomOuts s + j) ->
  (forall a s, zoomOuts (snd (f a s)) = zoomOuts s + k) ->
  forall s, zoomOuts (snd (bind m f s)) = zoomOuts s + (j + k).
Proof.
  intros Hm Hf s. unfold bind. specialize (Hm s).
  destruct (m s) as [a s']. cbn [snd] in Hm. rewrite Hf, Hm. lia.
Qed.

Lemma zoomOuts_for_range {A} (body : nat -> A -> M unit) (k : A -> nat) l :
  (forall i x s, zoomOuts (snd (body i x s)) = zoomOuts s + k x) ->
  forall i s,
    zoomOuts (snd (for_range i l body s)) = zoomOuts s + list_sum (map k l).
Proof.
  intros Hb. induction l as [|x l IH]; intros i s.
  - cbn. lia.
  - cbn [for_range map list_sum].
    apply zoomOuts_bind; [apply Hb|]. intros _ s'. apply IH.
Qed.

Lemma zoomOuts_dupBranch src dst s :
  zoomOuts (snd (dupBranch src dst s)) = zoomOuts s + 0.
Proof.
  unfold dupBranch. revert s.
  apply (zoomOuts_bind _ _ 0 0); intros; apply zoomOuts_printf.
Qed.

Lemma zoomOuts_zoomIn branch dir s :
  zoomOuts (snd (zoomIn branch dir s)) = zoomOuts s + 0.
Proof.
  unfold zoomIn. revert s.
  apply (zoomOuts_bind _ _ 0 0); intros; apply zoomOuts_printf.
Qed.

Lemma zoomOuts_mergeLayer bottom top s :
  zoomOuts (snd (mergeLayer bottom top s)) = zoomOuts s + 0.
Proof.
  unfold mergeLayer. revert s.
  apply (zoomOuts_bind _ _ 0 0); intros; apply zoomOuts_printf.
Qed.

Lemma zoomOuts_zoomOut env branch dir s :
  zoomOuts (snd (zoomOut env branch dir s)) = zoomOuts s + 1.
Proof.
  unfold zoomOut. revert s.
  apply (zoomOuts_bind _ _ 0 1); intros; [apply zoomOuts_printf|].
  revert s. apply (zoomOuts_bind _ _ 0 1); intros.
  - unfold zoomOuts, RandomString. cbn [snd stdout]. lia.
  - apply zoomOuts_printf.
Qed.

Lemma zoomOuts_fetch_source buildid src s :
  zoomOuts (snd (fetch_source buildid src s)) = zoomOuts s + 0.
Proof.
  unfold fetch_source, fetch. destruct (Name src =? "")%string.
  - apply zoomOuts_printf.
  - revert s. apply (zoomOuts_bind _ _ 0 0); intros; apply zoomOuts_printf.
Qed.

(** Every iteration of the mapping loop prints one zoom-out. *)
Lemma zoomOuts_apply_mapping env buildid src base i mp s :
  zoomOuts (snd (apply_mapping env buildid src base i mp s)) = zoomOuts s + 1.
Proof.
  unfold apply_mapping. rewrite Clean_eqb_empty. cbn [negb]. revert s.
  apply (zoomOuts_bind _ _ 0 1); intros; [apply zoomOuts_dupBranch|]. revert s.
  apply (zoomOuts_bind _ _ 0 1); intros.
  { destruct (negb _); [apply zoomOuts_zoomIn|].
    unfold zoomOuts, ret. cbn [snd]. lia. }
  revert s.
  apply (zoomOuts_bind _ _ 1 0); intros; [apply zoomOuts_zoomOut|].
  apply zoomOuts_mergeLayer.
Qed.

Lemma list_sum_const {A} (l : list A) : list_sum (map (fun _ => 0) l) = 0.
Proof. induction l; cbn; auto. Qed.

Lemma list_sum_ones {A} (l : list A) : list_sum (map (fun _ => 1) l) = length l.
Proof. induction l; cbn; auto. Qed.

Lemma list_sum_lengths {A B} (f : A -> list B) (l : list A) :
  list_sum (map (fun x => length (f x)) l) = length (flat_map f l).
Proof.
  induction l as [|x l IH]; [reflexivity|].
  cbn [map flat_map]. rewrite length_app, <- IH. reflexivity.
Qed.

Lemma zoomOuts_generate env buildid m s :
  zoomOuts (snd (generate env buildid m s))
  = zoomOuts s + length (flat_map Mapping (Sources m)).
Proof.
  unfold generate, for_each.
  replace (length (flat_map Mapping (Sources m)))
    with (0 + (0 + (0 + (0 + length (flat_map Mapping (Sources m)))))) by lia.
  revert s. apply zoomOuts_bind; intros.
  { rewrite <- (list_sum_const (Sources m)) at 2.
    apply zoomOuts_for_range. intros.
    unfold zoomOuts, apply_defaults, ret. cbn [snd]. lia. }
  revert s. apply zoomOuts_bind; intros; [apply zoomOuts_printf|].
  revert s. apply zoomOuts_bind; intros.
  { rewrite <- (list_sum_const (Sources m)) at 2.
    apply zoomOuts_for_range. intros. apply zoomOuts_fetch_source. }
  revert s. apply zoomOuts_bind; intros; [apply zoomOuts_dupBranch|].
  rewrite <- list_sum_lengths.
  apply zoomOuts_for_range. intros j src s'. unfold map_source.
  rewrite <- list_sum_ones.
  apply zoomOuts_for_range. intros. apply zoomOuts_apply_mapping.
Qed.

End upstream_facts.

(* ================================================================= *)
(** ** Properties of the plan *)

Module plan_facts.
Import path path_facts upstream upstream_facts plan.
Local Open Scope string_scope.

(** *** What an action prints and consumes *)

Lemma emits_ret {A} (a : A) s : emits (ret a) s [] 0.
Proof. split; cbn [ret snd]; [now rewrite app_nil_r|lia]. Qed.

Lemma emits_diag t n s : emits (printf (Diag t n)) s [] 0.
Proof.
  split; cbn [printf snd stdout rpos]; [|lia].
  unfold commands. rewrite flat_map_app. reflexivity.
Qed.

Lemma emits_sh c s : emits (printf (Sh c)) s [c] 0.
Proof.
  split; cbn [printf snd stdout rpos]; [|lia].
  unfold commands. rewrite flat_map_app. reflexivity.
Qed.

Lemma emits_bind {A B} (m : M A) (f : A -> M B) s cs1 k1 cs2 k2 :
  emits m s cs1 k1 ->
  (forall a, emits (f a) (snd (m s)) cs2 k2) ->
  emits (bind m f) s (cs1 ++ cs2) (k1 + k2).
Proof.
  intros [Hc Hr] Hf. unfold emits, bind in *.
  destruct (m s) as [a s']. cbn [snd] in *.
  destruct (Hf a) as [Hc2 Hr2]. split.
  - now rewrite Hc2, Hc, app_assoc.
  - rewrite Hr2, Hr. lia.
Qed.

Lemma emits_eq {A} (m : M A) s cs cs' k k' :
  emits m s cs k -> cs = cs' -> k = k' -> emits m s cs' k'.
Proof. now intros H -> ->. Qed.

Lemma emits_dupBranch src dst s : emits (dupBranch src dst) s [GitDup src dst] 0.
Proof.
  unfold dupBranch.
  apply (emits_bind _ _ s [] 0 [GitDup src dst] 0); [apply emits_diag|].
  intros _. apply emits_sh.
Qed.

Lemma emits_zoomIn branch dir s :
  emits (zoomIn branch dir) s [GitZoomIn branch dir] 0.
Proof.
  unfold zoomIn.
  apply (emits_bind _ _ s [] 0 [GitZoomIn branch dir] 0); [apply emits_diag|].
  intros _. apply emits_sh.
Qed.

Lemma emits_mergeLayer bottom top s :
  emits (mergeLayer bottom top) s [GitMerge bottom top] 0.
Proof.
  unfold mergeLayer.
  apply (emits_bind _ _ s [] 0 [GitMerge bottom top] 0); [apply emits_diag|].
  intros _. apply emits_sh.
Qed.

Lemma emits_zoomOut env branch dir s :
  emits (zoomOut env branch dir) s [GitZoomOut (tmp_at env (rpos s)) branch dir] 32.
Proof.
  destruct s as [o e r]. split.
  - cbv -[substring hex_EncodeToString String.append List.app commands seq map
          rand_Reader].
    unfold commands. rewrite !flat_map_app. cbn [flat_map List.app].
    now rewrite <- app_assoc.
  - reflexivity.
Qed.

Lemma emits_fetch_source buildid src s :
  emits (fetch_source buildid src) s
        (if Name src =? "" then []
         else [GitFetch (Url src) (Branch src) (baseBranch src buildid)]) 0.
Proof.
  unfold fetch_source, fetch.
  destruct (Name src =? "").
  - apply emits_diag.
  - apply (emits_bind _ _ s [] 0 [_] 0); [apply emits_diag|].
    intros _. apply emits_sh.
Qed.

(** One iteration of the mapping loop. *)
Lemma emits_apply_mapping env buildid src i mp s :
  emits (apply_mapping env buildid src (baseBranch src buildid) i mp) s
        (layer buildid src i mp (tmp_at env (rpos s))) 32.
Proof.
  unfold apply_mapping, layer. rewrite Clean_eqb_empty. cbn [negb].
  eapply emits_eq.
  - apply emits_bind; [apply emits_dupBranch|]. intros _.
    apply emits_bind.
    + instantiate (1 := 0).
      instantiate (1 := if Clean (fst mp) =? "/" then []
                        else [GitZoomIn (mapBranch src buildid i) (Clean (fst mp))]).
      destruct (Clean (fst mp) =? "/"); cbn [negb];
        [apply emits_ret|apply emits_zoomIn].
    + intros _. apply emits_bind; [apply emits_zoomOut|].
      intros _. apply emits_mergeLayer.
  - assert (E : rpos (snd ((if negb (Clean (fst mp) =? "/")
                            then zoomIn (mapBranch src buildid i) (Clean (fst mp))
                            else ret tt)
                             (snd (dupBranch (baseBranch src buildid)
                                     (mapBranch src buildid i) s)))) = rpos s).
    { destruct (Clean (fst mp) =? "/"); reflexivity. }
    rewrite E. reflexivity.
  - reflexivity.
Qed.

Lemma emits_mappings env buildid src ms :
  forall i s,
    emits (for_range i ms (apply_mapping env buildid src (baseBranch src buildid))) s
          (mapping_cmds env buildid src i (rpos s) ms) (32 * length ms).
Proof.
  induction ms as [|m ms IH]; intros i s.
  - apply emits_ret.
  - cbn [for_range mapping_cmds length].
    eapply emits_eq.
    + apply emits_bind; [apply emits_apply_mapping|]. intros _. apply IH.
    + destruct (emits_apply_mapping env buildid src i m s) as [_ Hr].
      now rewrite Hr.
    + lia.
Qed.

Lemma emits_sources env buildid srcs :
  forall i s,
    emits (for_range i srcs (fun _ => map_source env buildid)) s
          (source_cmds env buildid (rpos s) srcs)
          (32 * length (flat_map Mapping srcs)).
Proof.
  induction srcs as [|src srcs IH]; intros i s.
  - apply emits_ret.
  - cbn [for_range source_cmds flat_map]. rewrite length_app.
    eapply emits_eq.
    + apply emits_bind; [apply emits_mappings|]. intros _. apply IH.
    + destruct (emits_mappings env buildid src (Mapping src) 0 s) as [_ Hr].
      unfold map_source. now rewrite Hr.
    + lia.
Qed.

Lemma emits_fetches buildid srcs :
  forall i s,
    emits (for_range i srcs (fun _ => fetch_source buildid)) s
          (fetch_cmds buildid srcs) 0.
Proof.
  induction srcs as [|src srcs IH]; intros i s.
  - apply emits_ret.
  - cbn [for_range].
    eapply emits_eq.
    + apply emits_bind; [apply emits_fetch_source|]. intros _. apply IH.
    + reflexivity.
    + reflexivity.
Qed.

Lemma emits_defaults srcs :
  forall i s, emits (for_range i srcs (fun _ => apply_defaults)) s [] 0.
Proof.
  induction srcs as [|src srcs IH]; intros i s.
  - apply emits_ret.
  - cbn [for_range].
    apply (emits_bind _ _ s [] 0 [] 0); [apply emits_ret|]. intros _. apply IH.
Qed.

(** The commands of [generate], for every manifest. *)
Lemma emits_generate env buildid m s :
  emits (generate env buildid m) s
        (fetch_cmds buildid (Sources m)
           ++ GitDup "master" (dstBranch buildid)
           :: source_cmds env buildid (rpos s) (Sources m))
        (32 * length (flat_map Mapping (Sources m))).
Proof.
  unfold generate, for_each.
  eapply emits_eq.
  - apply emits_bind; [apply emits_defaults|]. intros _.
    apply emits_bind; [apply emits_diag|]. intros _.
    apply emits_bind; [apply emits_fetches|]. intros _.
    apply emits_bind; [apply emits_dupBranch|]. intros _.
    apply emits_sources.
  - cbn [List.app]. do 2 f_equal.
    rewrite (proj2 (emits_dupBranch _ _ _)), (proj2 (emits_fetches _ _ _ _)),
      (proj2 (emits_diag _ _ _)), (proj2 (emits_defaults _ _ _)).
    f_equal. lia.
  - lia.
Qed.

End plan_facts.

(* ================================================================= *)
(** ** More properties of [path.Clean] *)

Module clean_facts.
Import path path_facts upstream_facts plan.

Lemma norm_skip rooted es1 e es2 :
  astep rooted (norm rooted es1) e = norm rooted es1 ->
  norm rooted (es1 ++ e :: es2) = norm rooted (es1 ++ es2).
Proof.
  intros H. unfold norm in *. rewrite !fold_left_app. cbn [fold_left].
  now rewrite H.
Qed.

(** A path made of real elements is its own cleaned form. *)
Lemma clean_real_path l :
  forallb real (split l) = true -> clean l = l.
Proof.
  intros H.
  assert (Hwf : wf false (mka 0 (rev (split l)))).
  { split; [discriminate|]. now apply forallb_rev. }
  pose proof (clean_repr false _ Hwf) as Hc.
  rewrite repr_eq in Hc. cbn [buf ups elems root repeat List.app] in Hc.
  rewrite rev_involutive, join_split in Hc. apply Hc.
  intros E. subst l. discriminate.
Qed.

Lemma clean_real_path_rooted l :
  forallb real (split l) = true -> clean ("/"%char :: l) = "/"%char :: l.
Proof.
  intros H.
  assert (Hwf : wf true (mka 0 (rev (split l)))).
  { split; [reflexivity|]. now apply forallb_rev. }
  pose proof (clean_repr true _ Hwf) as Hc.
  rewrite repr_eq in Hc. cbn [buf ups elems root repeat List.app] in Hc.
  rewrite rev_involutive, join_split in Hc. apply Hc. discriminate.
Qed.

(** The cleaned form of a rooted path, and of one that is not. *)
Lemma clean_cases p :
  clean p = ["."%char]
  \/ exists rooted a,
       wf rooted a
       /\ clean p = root rooted ++ join (repeat dd (ups a) ++ rev (elems a))
       /\ (rooted = true <-> exists rest, p = "/"%char :: rest)
       /\ (rooted = false -> repeat dd (ups a) ++ rev (elems a) <> []).
Proof.
  destruct p as [|c rest]; [now left|].
  destruct (Ascii.eqb_spec c "/") as [->|Hc].
  - right. exists true, (norm true (split rest)).
    split; [apply norm_wf|]. split; [now rewrite clean_rooted|].
    split; [|discriminate]. split; [eauto|reflexivity].
  - pose proof Hc as Hc'. apply Ascii.eqb_neq in Hc'.
    rewrite clean_unrooted by assumption. cbv zeta.
    destruct (length (buf _) =? 0) eqn:E; [now left|].
    right. exists false, (norm false (split (c :: rest))).
    split; [apply norm_wf|]. split; [reflexivity|]. split.
    + split; [discriminate|]. intros [r Hr]. congruence.
    + intros _ H. rewrite repr_eq in E. cbn [buf root List.app] in E.
      rewrite H in E. discriminate.
Qed.

Lemma last_app_nonnil {A} (x e : list A) d :
  e <> [] -> last (x ++ e) d = last e d.
Proof.
  intros He. induction x as [|a x IH]; [reflexivity|].
  cbn [List.app]. destruct (x ++ e) eqn:E.
  - destruct x; [cbn in E; congruence|discriminate].
  - cbn [last]. exact IH.
Qed.

Lemma last_slashfree e :
  e <> [] -> slashfree e = true -> Ascii.eqb (last e "a"%char) "/" = false.
Proof.
  intros Hne He. unfold slashfree in He. rewrite forallb_forall in He.
  apply negb_true_iff, He.
  destruct e as [|c e]; [congruence|].
  destruct (exists_last (l := c :: e)) as (x & a & E); [discriminate|].
  rewrite E, last_last. apply in_or_app. right. now left.
Qed.

(** A join of non-empty slash-free elements does not end with a slash. *)
Lemma join_last es :
  es <> [] -> forallb nonnil es = true -> forallb slashfree es = true ->
  Ascii.eqb (last (join es) "a"%char) "/" = false.
Proof.
  intros Hne Hn Hs.
  destruct (exists_last Hne) as (es' & e & ->).
  rewrite forallb_app in Hn, Hs. cbn [forallb] in Hn, Hs.
  apply andb_true_iff in Hn as [_ Hn]. apply andb_true_iff in Hs as [_ Hs].
  rewrite andb_true_r in Hn, Hs.
  assert (He : e <> []) by (intros ->; discriminate).
  destruct es' as [|e0 es'].
  - cbn [List.app join]. now apply last_slashfree.
  - rewrite join_snoc by discriminate.
    change (join (e0 :: es') ++ "/"%char :: e)
      with (join (e0 :: es') ++ ["/"%char] ++ e).
    rewrite app_assoc, last_app_nonnil by assumption.
    now apply last_slashfree.
Qed.

Lemma rooted_string l :
  is_rooted (string_of_list_ascii l)
  = match l with c :: _ => Ascii.eqb c "/" | [] => false end.
Proof. now destruct l. Qed.

Lemma ends_with_slash_string l :
  ends_with_slash (string_of_list_ascii l)
  = match l with [] => false | _ => Ascii.eqb (last l "a"%char) "/" end.
Proof.
  induction l as [|c l IH]; [reflexivity|].
  cbn [string_of_list_ascii ends_with_slash].
  destruct l as [|c' l]; [reflexivity|].
  cbn [string_of_list_ascii] in *. rewrite IH. reflexivity.
Qed.

Lemma string_of_list_ascii_app l1 l2 :
  string_of_list_ascii (l1 ++ l2)
  = (string_of_list_ascii l1 ++ string_of_list_ascii l2)%string.
Proof. induction l1 as [|c l1 IH]; cbn; [reflexivity|now rewrite IH]. Qed.

Lemma list_ascii_of_string_app s1 s2 :
  list_ascii_of_string (s1 ++ s2)
  = (list_ascii_of_string s1 ++ list_ascii_of_string s2)%list.
Proof. induction s1 as [|c s1 IH]; cbn; [reflexivity|now rewrite IH]. Qed.

Lemma is_rooted_bytes p :
  is_rooted p
  = match list_ascii_of_string p with c :: _ => Ascii.eqb c "/" | [] => false end.
Proof. now destruct p. Qed.

Lemma clean_rooted_iff l :
  match clean l with c :: _ => Ascii.eqb c "/" | [] => false end
  = match l with c :: _ => Ascii.eqb c "/" | [] => false end.
Proof.
  destruct l as [|c rest]; [reflexivity|].
  destruct (Ascii.eqb c "/") eqn:Hc.
  - apply Ascii.eqb_eq in Hc. subst c. now rewrite clean_rooted.
  - rewrite clean_unrooted by assumption. cbv zeta.
    destruct (length (buf _) =? 0) eqn:E; [reflexivity|].
    pose proof (norm_wf false (c :: rest)) as Hwf.
    rewrite repr_eq in *. cbn [buf root List.app] in *.
    destruct (join_head (repeat dd (ups (norm false (split (c :: rest))))
                           ++ rev (elems (norm false (split (c :: rest))))))
      as (c' & l' & Ej & Hc').
    + intros H. rewrite H in E. discriminate.
    + now apply (elements_nonnil false).
    + now apply (elements_slashfree false).
    + now rewrite Ej.
Qed.

Lemma clean_trailing l :
  match clean l with [] => false | _ => Ascii.eqb (last (clean l) "a"%char) "/" end = true ->
  clean l = ["/"%char].
Proof.
  destruct (clean_cases l) as [E|(rooted & a & Hwf & E & _ & Hne)].
  - rewrite E. discriminate.
  - rewrite E.
    pose proof (elements_nonnil rooted a Hwf) as Hn.
    pose proof (elements_slashfree rooted a Hwf) as Hs.
    set (es := repeat dd (ups a) ++ rev (elems a)) in *.
    destruct es as [|e es'] eqn:Ees.
    + destruct rooted; [reflexivity|]. now destruct (Hne eq_refl).
    + assert (Hl : Ascii.eqb (last (root rooted ++ join (e :: es')) "a"%char) "/" = false).
      { assert (Hj : join (e :: es') <> []).
        { pose proof (join_nonnil (e :: es')) as Hp.
          intros Hj. rewrite Hj in Hp. cbn in Hp.
          assert (0 < 0) by (apply Hp; [discriminate|assumption]). lia. }
        rewrite last_app_nonnil by assumption.
        apply join_last; [discriminate|assumption|assumption]. }
      rewrite Hl. destruct (root rooted ++ join (e :: es')); discriminate.
Qed.

(** [Clean] is determined by the first byte and the elements. *)
Lemma clean_tail_congr a t1 t2 :
  (forall rooted st,
     fold_left (astep rooted) (split t1) st = fold_left (astep rooted) (split t2) st) ->
  clean (a ++ "/"%char :: t1) = clean (a ++ "/"%char :: t2).
Proof.
  intros H. destruct a as [|c a'].
  - cbn [List.app]. rewrite !clean_rooted. unfold norm. now rewrite H.
  - cbn [List.app]. destruct (Ascii.eqb c "/") eqn:Hc.
    + apply Ascii.eqb_eq in Hc. subst c. rewrite !clean_rooted.
      unfold norm. now rewrite !split_app_slash, !fold_left_app, H.
    + rewrite !clean_unrooted by assumption.
      change (c :: a' ++ "/"%char :: t1) with ((c :: a') ++ "/"%char :: t1).
      change (c :: a' ++ "/"%char :: t2) with ((c :: a') ++ "/"%char :: t2).
      unfold norm. now rewrite !split_app_slash, !fold_left_app, H.
Qed.

Lemma clean_trailing_slash l :
  l <> [] -> clean (l ++ ["/"%char]) = clean l.
Proof.
  intros Hne. destruct l as [|c r]; [congruence|].
  cbn [List.app]. destruct (Ascii.eqb c "/") eqn:Hc.
  - apply Ascii.eqb_eq in Hc. subst c. rewrite !clean_rooted.
    unfold norm. rewrite split_app_slash, fold_left_app. reflexivity.
  - rewrite !clean_unrooted by assumption.
    change (c :: r ++ ["/"%char]) with ((c :: r) ++ ["/"%char]).
    unfold norm. rewrite split_app_slash, fold_left_app. reflexivity.
Qed.

Lemma astep_push_pop rooted st x :
  real x = true -> astep rooted (astep rooted st x) dd = st.
Proof.
  intros Hx. apply real_inv in Hx as (Hn & _ & Hd & Hdd).
  destruct x as [|c x']; [discriminate|].
  unfold astep at 2. rewrite Hd, Hdd. now destruct st.
Qed.

(** A real element followed by [..] leaves no trace. *)
Lemma clean_dotdot_elim a x b :
  real x = true ->
  clean (a ++ "/"%char :: x ++ "/"%char :: dd ++ "/"%char :: b)
  = clean (a ++ "/"%char :: b).
Proof.
  intros Hx. apply clean_tail_congr. intros rooted st.
  rewrite split_elem_slash by now apply real_inv.
  rewrite split_elem_slash by reflexivity.
  cbn [fold_left]. now rewrite astep_push_pop.
Qed.

End clean_facts.

(* ================================================================= *)
(** ** More properties of the program's helpers *)

Module helper_facts.
Import path path_facts upstream upstream_facts plan plan_facts clean_facts.
Local Open Scope string_scope.

(** *** Hexadecimal tokens *)

Lemma hex_EncodeToString_cons b l :
  hex_EncodeToString (b :: l)
  = String (hexdigit (N.shiftr (Byte.to_N b) 4))
      (String (hexdigit (N.land (Byte.to_N b) 15)) (hex_EncodeToString l)).
Proof. reflexivity. Qed.

Lemma hex_length l : String.length (hex_EncodeToString l) = 2 * length l.
Proof.
  induction l as [|b l IH]; [reflexivity|].
  rewrite hex_EncodeToString_cons. cbn [String.length length]. rewrite IH. lia.
Qed.

Lemma hex_digits l :
  forallb is_hexdigit (list_ascii_of_string (hex_EncodeToString l)) = true.
Proof.
  induction l as [|b l IH]; [reflexivity|].
  rewrite hex_EncodeToString_cons. cbn [list_ascii_of_string forallb].
  now rewrite !hexdigit_is_hex, IH.
Qed.

Lemma hex_byte_digits b :
  hex_byte (hexdigit (N.shiftr (Byte.to_N b) 4))
           (hexdigit (N.land (Byte.to_N b) 15)) = Some b.
Proof. destruct b; vm_compute; reflexivity. Qed.

Lemma hex_digits_inj b1 b2 :
  hexdigit (N.shiftr (Byte.to_N b1) 4) = hexdigit (N.shiftr (Byte.to_N b2) 4) ->
  hexdigit (N.land (Byte.to_N b1) 15) = hexdigit (N.land (Byte.to_N b2) 15) ->
  b1 = b2.
Proof.
  intros H1 H2. pose proof (hex_byte_digits b1) as E1.
  rewrite H1, H2, hex_byte_digits in E1. congruence.
Qed.

Lemma hex_inj l1 l2 :
  hex_EncodeToString l1 = hex_EncodeToString l2 -> l1 = l2.
Proof.
  revert l2. induction l1 as [|b1 l1 IH]; intros [|b2 l2] H;
    try reflexivity; try discriminate.
  rewrite !hex_EncodeToString_cons in H. injection H as H1 H2 H3.
  f_equal; [now apply hex_digits_inj|now apply IH].
Qed.

Lemma hexdigit_not_slash n : Ascii.eqb (hexdigit n) "/" = false.
Proof.
  unfold hexdigit. generalize (N.to_nat n) as k. intros k.
  do 16 (destruct k as [|k]; [reflexivity|]). destruct k; reflexivity.
Qed.

Lemma hexdigit_not_dot n : Ascii.eqb (hexdigit n) "." = false.
Proof.
  unfold hexdigit. generalize (N.to_nat n) as k. intros k.
  do 16 (destruct k as [|k]; [reflexivity|]). destruct k; reflexivity.
Qed.

(** The first [2 * k] characters of a token spell its first [k] bytes. *)
Lemma substring_hex k l :
  k <= length l ->
  substring 0 (2 * k) (hex_EncodeToString l) = hex_EncodeToString (firstn k l).
Proof.
  revert l. induction k as [|k IH]; intros l Hk.
  - cbn. now destruct (hex_EncodeToString l).
  - destruct l as [|b l]; [cbn in Hk; lia|].
    replace (2 * S k) with (S (S (2 * k))) by lia.
    cbn [firstn]. rewrite !hex_EncodeToString_cons. cbn [substring].
    rewrite IH by (cbn in Hk; lia). reflexivity.
Qed.

Lemma tmp_at_eq env pos :
  tmp_at env pos = hex_EncodeToString (map (rand_Reader env) (seq pos 4)).
Proof.
  unfold tmp_at. rewrite (substring_hex 4) by (rewrite length_map, length_seq; lia).
  reflexivity.
Qed.

Lemma new_buildid_eq env s :
  fst (new_buildid env s)
  = hex_EncodeToString (map (rand_Reader env) (seq (rpos s) 2)).
Proof.
  unfold new_buildid, bind, RandomString, ret. cbn [fst].
  rewrite (substring_hex 2) by (rewrite length_map, length_seq; lia).
  reflexivity.
Qed.

(** *** Text of the script *)

Lemma append_assoc_s (a b c : string) : (a ++ b) ++ c = a ++ b ++ c.
Proof. induction a as [|x a IH]; cbn; [reflexivity|now rewrite IH]. Qed.

Lemma append_nil_r_s (a : string) : a ++ "" = a.
Proof. induction a as [|x a IH]; cbn; [reflexivity|now rewrite IH]. Qed.

(** *** Commands by kind *)

Lemma filter_fetch_layer buildid src i mp tmp :
  filter is_fetch (layer buildid src i mp tmp) = [].
Proof.
  unfold layer. cbv zeta.
  destruct (Clean (fst mp) =? "/"), (Clean (snd mp) =? ""); reflexivity.
Qed.

Lemma filter_fetch_mapping_cmds env buildid src ms :
  forall i pos, filter is_fetch (mapping_cmds env buildid src i pos ms) = [].
Proof.
  induction ms as [|m ms IH]; intros i pos; [reflexivity|].
  cbn [mapping_cmds]. now rewrite filter_app, filter_fetch_layer, IH.
Qed.

Lemma filter_fetch_source_cmds env buildid srcs :
  forall pos, filter is_fetch (source_cmds env buildid pos srcs) = [].
Proof.
  induction srcs as [|src srcs IH]; intros pos; [reflexivity|].
  cbn [source_cmds]. now rewrite filter_app, filter_fetch_mapping_cmds, IH.
Qed.

Lemma filter_fetch_cmds buildid srcs :
  filter is_fetch (fetch_cmds buildid srcs)
  = map (fun src => GitFetch (Url src) (Branch src) (baseBranch src buildid))
        (filter (fun src => negb (Name src =? "")) srcs).
Proof.
  induction srcs as [|src srcs IH]; [reflexivity|].
  unfold fetch_cmds in *. cbn [flat_map filter]. rewrite filter_app, IH.
  destruct (Name src =? ""); reflexivity.
Qed.

Lemma filter_fetch_plan env buildid pos srcs :
  filter is_fetch
    (fetch_cmds buildid srcs
       ++ GitDup "master" (dstBranch buildid) :: source_cmds env buildid pos srcs)
  = map (fun src => GitFetch (Url src) (Branch src) (baseBranch src buildid))
        (filter (fun src => negb (Name src =? "")) srcs).
Proof.
  rewrite filter_app. cbn [filter is_fetch].
  rewrite filter_fetch_source_cmds, app_nil_r. apply filter_fetch_cmds.
Qed.

(** *** The run of a decoded manifest *)

Lemma run_decoded toml_Decode env m :
  decoded toml_Decode env = Some m ->
  run toml_Decode env
  = (Exit0,
     snd (generate env (fst (new_buildid env (mkSt [] [] 0))) m
            (mkSt [Diag ("# Starting build " ++ fst (new_buildid env (mkSt [] [] 0))) 1;
                   Sh SetE] [] 32))).
Proof.
  unfold decoded. intros H. rewrite run_eq. cbv zeta.
  destruct (os_Open env) as [[data|e]|e]; try discriminate.
  destruct (toml_Decode data) as [m'|e]; try discriminate.
  now injection H as ->.
Qed.

Lemma run_not_decoded toml_Decode env :
  decoded toml_Decode env = None ->
  exists e,
    run toml_Decode env
    = (Exit1,
       mkSt [Diag ("# Starting build " ++ fst (new_buildid env (mkSt [] [] 0))) 1;
             Sh SetE] [e] 32).
Proof.
  unfold decoded. intros H. rewrite run_eq. cbv zeta.
  destruct (os_Open env) as [[data|e]|e]; eauto.
  destruct (toml_Decode data) as [m'|e]; [discriminate|eauto].
Qed.

(** *** [path.Join] on clean elements and on empty elements *)

Lemma concat_bytes e rest :
  list_ascii_of_string (String.concat "/" (e :: rest))
  = (list_ascii_of_string e
       ++ flat_map (fun e => "/"%char :: list_ascii_of_string e) rest)%list.
Proof.
  revert e. induction rest as [|e' rest IH]; intros e.
  - cbn. now rewrite app_nil_r.
  - change (String.concat "/" (e :: e' :: rest))
      with (e ++ "/" ++ String.concat "/" (e' :: rest)).
    rewrite list_ascii_of_string_app.
    change ("/" ++ String.concat "/" (e' :: rest))
      with (String "/" (String.concat "/" (e' :: rest))).
    cbn [list_ascii_of_string flat_map]. now rewrite IH.
Qed.

Lemma split_slashed x rest :
  split (x ++ flat_map (fun e => "/"%char :: list_ascii_of_string e) rest)
  = (split x ++ flat_map (fun e => split (list_ascii_of_string e)) rest)%list.
Proof.
  revert x. induction rest as [|e rest IH]; intros x.
  - cbn. now rewrite !app_nil_r.
  - cbn [flat_map List.app]. rewrite split_app_slash, IH. reflexivity.
Qed.

Lemma forallb_flat_map {A B} (P : B -> bool) (f : A -> list B) l :
  forallb P (flat_map f l) = forallb (fun x => forallb P (f x)) l.
Proof.
  induction l as [|x l IH]; [reflexivity|].
  cbn [flat_map forallb]. now rewrite forallb_app, IH.
Qed.

(** Joining clean relative paths is writing them with slashes in between. *)
Lemma Join_literal c a rest :
  forallb name_ok (String c a :: rest) = true ->
  Join (String c a :: rest) = String.concat "/" (String c a :: rest).
Proof.
  intros H. rewrite Join_first.
  change (c :: list_ascii_of_string a
            ++ flat_map (fun e => "/"%char :: list_ascii_of_string e) rest)%list
    with (list_ascii_of_string (String c a)
            ++ flat_map (fun e => "/"%char :: list_ascii_of_string e) rest)%list.
  rewrite clean_real_path.
  - rewrite <- concat_bytes. apply string_of_list_ascii_of_string.
  - rewrite split_slashed, forallb_app, forallb_flat_map.
    cbn [forallb] in H. exact H.
Qed.

Lemma name_ok_itoa n : name_ok (itoa n) = true.
Proof. unfold name_ok. rewrite split_itoa. cbn. now rewrite itoa_real. Qed.

Lemma name_ok_buildid env s : name_ok (fst (new_buildid env s)) = true.
Proof.
  rewrite new_buildid_eq. cbn [seq map]. rewrite !hex_EncodeToString_cons.
  unfold name_ok. cbn [list_ascii_of_string hex_EncodeToString flat_map
                        string_of_list_ascii].
  rewrite split_slashfree_elem.
  - unfold real, slashfree, is_dot, is_dotdot.
    cbn [forallb length Nat.eqb negb andb].
    now rewrite !hexdigit_not_slash.
  - unfold slashfree. cbn [forallb]. now rewrite !hexdigit_not_slash.
Qed.

Lemma join_buf_app b l1 l2 :
  join_buf b (l1 ++ l2) = join_buf (join_buf b l1) l2.
Proof.
  revert b. induction l1 as [|e l1 IH]; intros b; [reflexivity|].
  cbn [List.app join_buf]. cbv zeta.
  destruct ((0 <? length b) || negb (length (list_ascii_of_string e) =? 0))%nat;
    apply IH.
Qed.

Lemma Join_skips_empty l1 l2 :
  Join (l1 ++ "" :: l2) = Join (l1 ++ l2).
Proof.
  unfold Join.
  assert (Hsize : fold_left (fun n e => n + String.length e) (l1 ++ "" :: l2) 0
                  = fold_left (fun n e => n + String.length e) (l1 ++ l2) 0).
  { rewrite !fold_left_app. cbn [fold_left String.length]. now rewrite Nat.add_0_r. }
  rewrite Hsize. destruct (_ =? 0)%nat; [reflexivity|]. f_equal.
  rewrite !join_buf_app.
  destruct (join_buf [] l1) as [|c b]; [reflexivity|].
  change (join_buf (c :: b) ("" :: l2))
    with (join_buf (((c :: b) ++ ["/"%char]) ++ []) l2).
  rewrite app_nil_r, !join_buf_nonempty by (destruct b; discriminate).
  destruct l2 as [|e l2].
  - cbn [flat_map]. rewrite !app_nil_r. apply clean_trailing_slash. discriminate.
  - cbn [flat_map]. rewrite <- !app_assoc.
    change (["/"%char] ++ ("/"%char :: list_ascii_of_string e)
              ++ flat_map (fun e0 => "/"%char :: list_ascii_of_string e0) l2)%list
      with ("/"%char :: "/"%char :: (list_ascii_of_string e
              ++ flat_map (fun e0 => "/"%char :: list_ascii_of_string e0) l2))%list.
    change (("/"%char :: list_ascii_of_string e)
              ++ flat_map (fun e0 => "/"%char :: list_ascii_of_string e0) l2)%list
      with ("/"%char :: (list_ascii_of_string e
              ++ flat_map (fun e0 => "/"%char :: list_ascii_of_string e0) l2))%list.
    apply (clean_tail_congr (c :: b)). intros rooted st. reflexivity.
Qed.

(** *** The directories of the zoom commands *)

Lemma zoomIn_dir_ok branch dir :
  Clean dir = dir -> dir <> "/" -> all_out zoom_dir_ok (zoomIn branch dir).
Proof.
  intros Hc Hd. unfold zoomIn.
  apply bind_all; [now apply printf_all|]. intros _.
  apply printf_all. cbn [zoom_dir_ok]. rewrite Hc, String.eqb_refl.
  apply String.eqb_neq in Hd. now rewrite Hd.
Qed.

Lemma zoomOut_dir_ok env branch dir :
  Clean dir = dir -> dir <> "" -> all_out zoom_dir_ok (zoomOut env branch dir).
Proof.
  intros Hc Hd. unfold zoomOut.
  apply bind_all; [now apply printf_all|]. intros _.
  apply bind_all; [apply RandomString_all|]. intros r.
  apply printf_all. cbn [zoom_dir_ok]. rewrite Hc, String.eqb_refl.
  apply String.eqb_neq in Hd. now rewrite Hd.
Qed.

Lemma apply_mapping_dir_ok env buildid src base i mp :
  all_out zoom_dir_ok (apply_mapping env buildid src base i mp).
Proof.
  unfold apply_mapping.
  apply bind_all; [unfold dupBranch; all_items|]. intros _.
  apply bind_all.
  { destruct (Clean (fst mp) =? "/") eqn:E; cbn [negb]; [apply ret_all|].
    apply zoomIn_dir_ok; [apply Clean_idem|now apply String.eqb_neq]. }
  intros _. apply bind_all.
  { rewrite Clean_eqb_empty. cbn [negb].
    apply zoomOut_dir_ok; [apply Clean_idem|apply Clean_not_empty]. }
  intros _. unfold mergeLayer. all_items.
Qed.

Lemma generate_dir_ok env buildid m :
  all_out zoom_dir_ok (generate env buildid m).
Proof.
  unfold generate, for_each.
  apply bind_all.
  { apply for_range_all. intros. unfold apply_defaults. apply ret_all. }
  intros _. apply bind_all; [now apply printf_all|]. intros _.
  apply bind_all.
  { apply for_range_all. intros. unfold fetch_source, fetch. all_items. }
  intros _. apply bind_all; [unfold dupBranch; all_items|]. intros _.
  apply for_range_all. intros. unfold map_source.
  apply for_range_all. intros. apply apply_mapping_dir_ok.
Qed.

(** *** Branch names below [citizenkane/<buildid>] *)

(** The bytes of [citizenkane/<buildid>] after the leading [c]. *)
Lemma Join_ck buildid rest :
  Join ("citizenkane" :: buildid :: rest)
  = string_of_list_ascii
      (clean (("c"%char :: list_ascii_of_string "itizenkane"
                 ++ "/"%char :: list_ascii_of_string buildid)
                ++ flat_map (fun e => "/"%char :: list_ascii_of_string e) rest)).
Proof.
  rewrite Join_first. apply f_equal. apply f_equal.
  cbn [flat_map]. cbn [List.app]. apply f_equal.
  rewrite <- app_assoc. reflexivity.
Qed.

Lemma real_split_cons e s :
  real e = true -> forallb real (split s) = true ->
  forallb real (split (e ++ "/"%char :: s)) = true.
Proof.
  intros He Hs. rewrite split_elem_slash by now apply real_inv.
  cbn [forallb]. now rewrite He.
Qed.

End helper_facts.

(* ================================================================= *)
(** ** Properties of the process *)

Module process_facts.
Import path path_facts upstream upstream_facts plan plan_facts process.
Local Open Scope string_scope.

Lemma bind_returned {A B} (m : P A) (f : A -> P B) s a s' :
  m s = Returned a s' -> process.bind m f s = f a s'.
Proof. unfold process.bind. now intros ->. Qed.

Lemma bind_panicked {A B} (m : P A) (f : A -> P B) s e s' :
  m s = Panicked e s' -> process.bind m f s = Panicked e s'.
Proof. unfold process.bind. now intros ->. Qed.

Lemma lift_eq {A} (m : M A) s : lift m s = Returned (fst (m s)) (snd (m s)).
Proof. unfold lift. now destruct (m s). Qed.

Lemma bind_lift {A B} (m : M A) (f : A -> P B) s :
  process.bind (lift m) f s = f (fst (m s)) (snd (m s)).
Proof. apply bind_returned, lift_eq. Qed.

Lemma ubind_eq {A B} (m : M A) (f : A -> M B) s :
  upstream.bind m f s = f (fst (m s)) (snd (m s)).
Proof. unfold upstream.bind. now destruct (m s). Qed.

Lemma unit_tt (u : unit) : u = tt.
Proof. now destruct u. Qed.

(** *** One read *)

Lemma RandomString_returns w s :
  rand_error w (rpos s) = None ->
  process.RandomString w s
  = Returned (fst (upstream.RandomString (world_env w) s))
             (snd (upstream.RandomString (world_env w) s)).
Proof. unfold process.RandomString. now intros ->. Qed.

Lemma RandomString_panics w s e :
  rand_error w (rpos s) = Some e -> process.RandomString w s = Panicked e s.
Proof. unfold process.RandomString. now intros ->. Qed.

Lemma zoomOut_returns w branch dir s :
  rand_error w (rpos s) = None ->
  process.zoomOut w branch dir s
  = Returned tt (snd (upstream.zoomOut (world_env w) branch dir s)).
Proof.
  intros H. unfold process.zoomOut, upstream.zoomOut.
  rewrite bind_lift.
  erewrite bind_returned by (apply RandomString_returns; exact H).
  rewrite lift_eq, ?ubind_eq. f_equal; auto using unit_tt.
Qed.

Lemma zoomOut_panics w branch dir s e :
  rand_error w (rpos s) = Some e ->
  exists s', process.zoomOut w branch dir s = Panicked e s'.
Proof.
  intros H. unfold process.zoomOut. rewrite bind_lift.
  eexists. apply bind_panicked. apply RandomString_panics. exact H.
Qed.

(** *** One mapping *)

Lemma rpos_zoomIn_step buildid src base i (mp : string * string) s :
  rpos (snd ((if negb (Clean (fst mp) =? "/")
              then zoomIn (mapBranch src buildid i) (Clean (fst mp))
              else upstream.ret tt)
               (snd (dupBranch base (mapBranch src buildid i) s))))
  = rpos s.
Proof. destruct (Clean (fst mp) =? "/"); reflexivity. Qed.

Lemma zoomIn_step_eq buildid src i (mp : string * string) s :
  (if negb (Clean (fst mp) =? "/")
   then lift (zoomIn (mapBranch src buildid i) (Clean (fst mp)))
   else process.ret tt) s
  = Returned tt
      (snd ((if negb (Clean (fst mp) =? "/")
             then zoomIn (mapBranch src buildid i) (Clean (fst mp))
             else upstream.ret tt) s)).
Proof. destruct (Clean (fst mp) =? "/"); reflexivity. Qed.

Lemma apply_mapping_returns w buildid src base i mp s :
  rand_error w (rpos s) = None ->
  process.apply_mapping w buildid src base i mp s
  = Returned tt (snd (upstream.apply_mapping (world_env w) buildid src base i mp s)).
Proof.
  intros H. unfold process.apply_mapping, upstream.apply_mapping.
  rewrite Clean_eqb_empty. cbn [negb].
  rewrite bind_lift.
  erewrite bind_returned by apply zoomIn_step_eq.
  erewrite bind_returned
    by (apply zoomOut_returns; rewrite rpos_zoomIn_step; exact H).
  rewrite lift_eq, ?ubind_eq. f_equal; auto using unit_tt.
Qed.

Lemma apply_mapping_panics w buildid src base i mp s e :
  rand_error w (rpos s) = Some e ->
  exists s', process.apply_mapping w buildid src base i mp s = Panicked e s'.
Proof.
  intros H. unfold process.apply_mapping.
  rewrite Clean_eqb_empty. cbn [negb].
  rewrite bind_lift.
  erewrite bind_returned by apply zoomIn_step_eq.
  destruct (zoomOut_panics w (mapBranch src buildid i) (Clean (snd mp))
              (snd ((if negb (Clean (fst mp) =? "/")
                     then zoomIn (mapBranch src buildid i) (Clean (fst mp))
                     else upstream.ret tt)
                      (snd (dupBranch base (mapBranch src buildid i) s)))) e)
    as [s' Hs'].
  { rewrite rpos_zoomIn_step. exact H. }
  exists s'. now apply bind_panicked.
Qed.

(** *** The loops *)

Lemma reads_ok_0 w pos : reads_ok w pos 0 = true.
Proof. reflexivity. Qed.

Lemma forallb_seq_shift (f : nat -> bool) n :
  forall a, forallb f (seq (S a) n) = forallb (fun j => f (S j)) (seq a n).
Proof.
  induction n as [|n IH]; intros a; [reflexivity|].
  cbn [seq forallb]. now rewrite IH.
Qed.

Lemma forallb_pointwise {A} (f g : A -> bool) l :
  (forall x, f x = g x) -> forallb f l = forallb g l.
Proof.
  intros H. induction l as [|x l IH]; [reflexivity|].
  cbn [forallb]. now rewrite H, IH.
Qed.

Lemma reads_ok_S w pos n :
  reads_ok w pos (S n)
  = match rand_error w pos with None => true | Some _ => false end
    && reads_ok w (pos + 32) n.
Proof.
  unfold reads_ok. cbn [seq forallb]. rewrite Nat.mul_0_r, Nat.add_0_r.
  f_equal. rewrite forallb_seq_shift.
  apply forallb_pointwise. intros j.
  replace (pos + 32 * S j) with (pos + 32 + 32 * j) by lia. reflexivity.
Qed.

Lemma reads_ok_add w pos n1 n2 :
  reads_ok w pos (n1 + n2)
  = reads_ok w pos n1 && reads_ok w (pos + 32 * n1) n2.
Proof.
  revert pos. induction n1 as [|n1 IH]; intros pos.
  - cbn [Nat.add]. rewrite reads_ok_0, Nat.mul_0_r, Nat.add_0_r. reflexivity.
  - cbn [Nat.add]. rewrite !reads_ok_S, IH, <- andb_assoc.
    replace (pos + 32 + 32 * n1) with (pos + 32 * S n1) by lia. reflexivity.
Qed.

Lemma rpos_apply_mapping env buildid src i mp s :
  rpos (snd (upstream.apply_mapping env buildid src (baseBranch src buildid) i mp s))
  = rpos s + 32.
Proof. apply (emits_apply_mapping env buildid src i mp s). Qed.

Lemma mappings_return w buildid src ms :
  forall i s,
    reads_ok w (rpos s) (length ms) = true ->
    process.for_range i ms (process.apply_mapping w buildid src (baseBranch src buildid)) s
    = Returned tt
        (snd (upstream.for_range i ms
                (upstream.apply_mapping (world_env w) buildid src
                   (baseBranch src buildid)) s)).
Proof.
  induction ms as [|m ms IH]; intros i s H; [reflexivity|].
  cbn [length] in H. rewrite reads_ok_S in H.
  apply andb_true_iff in H as [H0 H1].
  destruct (rand_error w (rpos s)) eqn:E; [discriminate|].
  cbn [process.for_range upstream.for_range].
  erewrite bind_returned by (apply apply_mapping_returns; exact E).
  rewrite IH by (rewrite rpos_apply_mapping; exact H1).
  now rewrite ubind_eq.
Qed.

Lemma mappings_panic w buildid src ms :
  forall i s,
    reads_ok w (rpos s) (length ms) = false ->
    exists e s',
      process.for_range i ms
        (process.apply_mapping w buildid src (baseBranch src buildid)) s
      = Panicked e s'.
Proof.
  induction ms as [|m ms IH]; intros i s H; [discriminate|].
  cbn [length] in H. rewrite reads_ok_S in H.
  cbn [process.for_range].
  destruct (rand_error w (rpos s)) as [e|] eqn:E.
  - destruct (apply_mapping_panics w buildid src (baseBranch src buildid) i m s e E)
      as [s' Hs'].
    exists e, s'. now apply bind_panicked.
  - cbn [andb] in H.
    erewrite bind_returned by (apply apply_mapping_returns; exact E).
    apply IH. rewrite rpos_apply_mapping. exact H.
Qed.

Lemma rpos_map_source env buildid src s :
  rpos (snd (upstream.for_range 0 (Mapping src)
               (upstream.apply_mapping env buildid src (baseBranch src buildid)) s))
  = rpos s + 32 * length (Mapping src).
Proof. apply (emits_mappings env buildid src (Mapping src) 0 s). Qed.

Lemma sources_return w buildid srcs :
  forall i s,
    reads_ok w (rpos s) (length (flat_map Mapping srcs)) = true ->
    process.for_range i srcs (fun _ => process.map_source w buildid) s
    = Returned tt
        (snd (upstream.for_range i srcs
                (fun _ => upstream.map_source (world_env w) buildid) s)).
Proof.
  induction srcs as [|src srcs IH]; intros i s H; [reflexivity|].
  cbn [flat_map] in H. rewrite length_app, reads_ok_add in H.
  apply andb_true_iff in H as [H0 H1].
  cbn [process.for_range upstream.for_range].
  unfold process.map_source at 1.
  erewrite bind_returned by (apply mappings_return; exact H0).
  rewrite IH by (rewrite rpos_map_source; exact H1).
  now rewrite ubind_eq.
Qed.

Lemma sources_panic w buildid srcs :
  forall i s,
    reads_ok w (rpos s) (length (flat_map Mapping srcs)) = false ->
    exists e s',
      process.for_range i srcs (fun _ => process.map_source w buildid) s
      = Panicked e s'.
Proof.
  induction srcs as [|src srcs IH]; intros i s H; [discriminate|].
  cbn [flat_map] in H. rewrite length_app, reads_ok_add in H.
  cbn [process.for_range].
  destruct (reads_ok w (rpos s) (length (Mapping src))) eqn:E.
  - cbn [andb] in H. unfold process.map_source at 1.
    erewrite bind_returned by (apply mappings_return; exact E).
    apply IH. rewrite rpos_map_source. exact H.
  - unfold process.map_source at 1.
    destruct (mappings_panic w buildid src (Mapping src) 0 s E) as (e & s' & Hs').
    exists e, s'. now apply bind_panicked.
Qed.

(** *** Generation *)

(** The state in which [generate] reaches the mapping loop. *)
Lemma generate_split env buildid m s :
  exists s1,
    rpos s1 = rpos s
    /\ (forall w, world_env w = env ->
          process.generate w buildid m s
          = process.for_each (Sources m) (process.map_source w buildid) s1)
    /\ upstream.generate env buildid m s
       = upstream.for_each (Sources m) (upstream.map_source env buildid) s1.
Proof.
  unfold process.generate, upstream.generate.
  set (a1 := upstream.for_each (Sources m) apply_defaults).
  set (a2 := printf _).
  set (a3 := upstream.for_each (Sources m) (fetch_source buildid)).
  set (a4 := dupBranch _ _).
  exists (snd (a4 (snd (a3 (snd (a2 (snd (a1 s)))))))).
  split; [|split].
  - unfold a4, a3, a2, a1, upstream.for_each.
    rewrite (proj2 (emits_dupBranch _ _ _)), (proj2 (emits_fetches _ _ _ _)),
      (proj2 (emits_diag _ _ _)), (proj2 (emits_defaults _ _ _)). lia.
  - intros w _. now rewrite !bind_lift.
  - now rewrite !ubind_eq.
Qed.

Lemma generate_returns w buildid m s :
  reads_ok w (rpos s) (length (flat_map Mapping (Sources m))) = true ->
  process.generate w buildid m s
  = Returned tt (snd (upstream.generate (world_env w) buildid m s)).
Proof.
  intros H.
  destruct (generate_split (world_env w) buildid m s) as (s1 & Hr & Hp & Hu).
  rewrite Hp, Hu by reflexivity.
  apply sources_return. now rewrite Hr.
Qed.

Lemma generate_panics w buildid m s :
  reads_ok w (rpos s) (length (flat_map Mapping (Sources m))) = false ->
  exists e s', process.generate w buildid m s = Panicked e s'.
Proof.
  intros H.
  destruct (generate_split (world_env w) buildid m s) as (s1 & Hr & Hp & _).
  rewrite Hp by reflexivity.
  apply sources_panic. now rewrite Hr.
Qed.

(** *** The whole process *)

Lemma forallb_false_ex {A} (f : A -> bool) l :
  forallb f l = false -> exists x, In x l /\ f x = false.
Proof.
  induction l as [|x l IH]; [discriminate|].
  cbn [forallb]. destruct (f x) eqn:E.
  - intros H. destruct (IH H) as (y & Hy & Hf). exists y. split; [now right|exact Hf].
  - intros _. exists x. split; [now left|exact E].
Qed.

Lemma reads_ok_false_iff w n :
  reads_ok w 32 n = false
  <-> exists k, 1 <= k <= n /\ rand_error w (32 * k) <> None.
Proof.
  unfold reads_ok. split.
  - intros H. apply forallb_false_ex in H as (j & Hin & Hj).
    apply in_seq in Hin. exists (S j). split; [lia|].
    replace (32 * S j) with (32 + 32 * j) by lia.
    destruct (rand_error w (32 + 32 * j)); [discriminate|discriminate].
  - intros (k & Hk & He).
    apply not_true_is_false. intros H. rewrite forallb_forall in H.
    specialize (H (k - 1)).
    replace (32 + 32 * (k - 1)) with (32 * k) in H by lia.
    destruct (rand_error w (32 * k)); [|congruence].
    assert (false = true) by (apply H; apply in_seq; lia). discriminate.
Qed.

Lemma reads_ok_all w pos n :
  (forall p, rand_error w p = None) -> reads_ok w pos n = true.
Proof.
  intros H. unfold reads_ok. apply forallb_forall. intros j _. now rewrite H.
Qed.

(** The outcome of the process, case by case. *)
Lemma run_cases toml_Decode w :
  let env := world_env w in
  let buildid := fst (upstream.new_buildid env (mkSt [] [] 0)) in
  let s0 := mkSt [Diag ("# Starting build " ++ buildid) 1; Sh SetE] [] 32 in
  match rand_error w 0 with
  | Some e => process.run toml_Decode w = Panicked e (mkSt [] [] 0)
  | None =>
      match os_Open env with
      | Err e => process.run toml_Decode w = Returned Exit1 (mkSt (stdout s0) [e] 32)
      | Ok (Err e) => process.run toml_Decode w = Returned Exit1 (mkSt (stdout s0) [e] 32)
      | Ok (Ok data) =>
          match toml_Decode data with
          | Err e =>
              process.run toml_Decode w = Returned Exit1 (mkSt (stdout s0) [e] 32)
          | Ok m =>
              if reads_ok w 32 (length (flat_map Mapping (Sources m))) then
                process.run toml_Decode w
                = Returned Exit0 (snd (upstream.generate env buildid m s0))
              else exists e s', process.run toml_Decode w = Panicked e s'
          end
      end
  end.
Proof.
  cbv zeta. unfold process.run, process.main, process.new_buildid.
  destruct (rand_error w 0) as [e|] eqn:E0.
  - erewrite bind_panicked; [reflexivity|].
    apply bind_panicked. apply RandomString_panics. exact E0.
  - erewrite bind_returned.
    2:{ erewrite bind_returned by (apply RandomString_returns; exact E0).
        reflexivity. }
    rewrite !bind_lift. cbn [printf fst snd stdout stderr rpos List.app].
    change (substring 0 4 (fst (upstream.RandomString (world_env w) (mkSt [] [] 0))))
      with (fst (upstream.new_buildid (world_env w) (mkSt [] [] 0))).
    change (rpos (snd (upstream.RandomString (world_env w) (mkSt [] [] 0)))) with 32.
    change (stdout (snd (upstream.RandomString (world_env w) (mkSt [] [] 0))))
      with (@nil Out).
    change (stderr (snd (upstream.RandomString (world_env w) (mkSt [] [] 0))))
      with (@nil string).
    cbn [List.app].
    destruct (os_Open (world_env w)) as [[data|e]|e]; try reflexivity.
    destruct (toml_Decode data) as [m|e]; try reflexivity.
    destruct (reads_ok w 32 (length (flat_map Mapping (Sources m)))) eqn:R.
    + erewrite bind_returned by (apply generate_returns; exact R). reflexivity.
    + destruct (generate_panics w (fst (upstream.new_buildid (world_env w) (mkSt [] [] 0)))
                  m (mkSt [Diag ("# Starting build "
                                   ++ fst (upstream.new_buildid (world_env w) (mkSt [] [] 0))) 1;
                           Sh SetE] [] 32) R) as (e & s' & Hs').
      exists e, s'. now apply bind_panicked.
Qed.

End process_facts.

(* ================================================================= *)
(** ** The embedding of [path] on the library's test tables *)

(** The [cleantests] table of Go's [path] package. *)
Example Clean_table :
  map path.Clean
    [ ""; "abc"; "abc/def"; "a/b/c"; "."; ".."; "../.."; "../../abc"; "/abc"; "/";
      "abc/"; "abc/def/"; "a/b/c/"; "./"; "../"; "../../"; "/abc/";
      "abc//def//ghi"; "//abc"; "///abc"; "//abc//"; "abc//";
      "abc/./def"; "/./abc/def"; "abc/.";
      "abc/def/ghi/../jkl"; "abc/def/../ghi/../jkl"; "abc/def/.."; "abc/def/../..";
      "/abc/def/../.."; "abc/def/../../.."; "/abc/def/../../..";
      "abc/def/../../../ghi/jkl/../../../mno";
      "abc/./../def"; "abc//./../def"; "abc/../../././../def" ]%string
  = [ "."; "abc"; "abc/def"; "a/b/c"; "."; ".."; "../.."; "../../abc"; "/abc"; "/";
      "abc"; "abc/def"; "a/b/c"; "."; ".."; "../.."; "/abc";
      "abc/def/ghi"; "/abc"; "/abc"; "/abc"; "abc";
      "abc/def"; "/abc/def"; "abc";
      "abc/def/jkl"; "abc/jkl"; "abc"; ".";
      "/"; ".."; "/";
      "../../mno";
      "def"; "def"; "../../def" ]%string.
Proof. vm_compute. reflexivity. Qed.

(** The [jointests] table of Go's [path] package. *)
Example Join_table :
  map path.Join
    [ []; [""]; ["a"]; ["a"; ""]; ["a"; "b"]; ["a"; "b"; "c"]; [""; "a"]; [""; ""];
      ["a/"; "b"]; ["a/"; ""] ]%string
  = [ ""; ""; "a"; "a"; "a/b"; "a/b/c"; "a"; "";
      "a/b"; "a" ]%string.
Proof. vm_compute. reflexivity. Qed.

(** The branch names of a build. *)
Example branch_names :
  upstream.dstBranch "ab12" = "citizenkane/ab12/dst"%string
  /\ upstream.baseBranch upstream.docs_src "ab12" = "citizenkane/ab12/base/docs"%string
  /\ upstream.mapBranch upstream.docs_src "ab12" 10
     = "citizenkane/ab12/map/docs/10"%string
  /\ upstream.baseBranch upstream.unnamed_src "ab12" = "citizenkane/ab12/base"%string.
Proof. vm_compute. repeat split. Qed.

(* ================================================================= *)
(** ** The claims *)

Import path path_facts upstream upstream_facts.
Local Open Scope string_scope.

(** Evaluation of a run whose sources are given explicitly. *)
Ltac run_steps :=
  cbv -[baseBranch mapBranch dstBranch path.Clean substring hex_EncodeToString
        String.append itoa String.eqb seq].

(** *** C1 *)

(** C1 (code defect): a source whose [Branch] is unset should be fetched
    from ["master"].  On the manifest of the specification's example the
    only fetch command has the empty string as its remote branch: the
    defaults loop changes a copy of the source. *)
Theorem unset_branch_fetch_has_empty_ref :
  Branch docs_src = ""
  /\ filter is_fetch
       (commands (stdout (snd (run (decodes_to (mkManifest [docs_src])) sample_env))))
     = [GitFetch "https://example/docs.git" "" "citizenkane/c31f/base/docs"]
  /\ render_cmd (GitFetch "https://example/docs.git" "" "citizenkane/c31f/base/docs")
     = "git fetch -f https://example/docs.git :citizenkane/c31f/base/docs" ++ nl ++ nl.
Proof. split; [|split]; vm_compute; reflexivity. Qed.

(** *** C2 *)

(** C2 (code defect): a source whose [Mapping] is empty should get one
    identity mapping.  On a manifest holding one such source the script
    stops after the duplicate-to-destination step: no duplicate-to-map,
    zoom or merge command is emitted for it. *)
Theorem empty_mapping_emits_no_layer :
  Mapping nomap_src = []
  /\ commands (stdout (snd (run (decodes_to (mkManifest [nomap_src])) sample_env)))
     = [SetE;
        GitFetch "https://example/libs.git" "stable" "citizenkane/c31f/base/libs";
        GitDup "master" "citizenkane/c31f/dst"].
Proof. split; vm_compute; reflexivity. Qed.

(** *** C3 *)

(** C3 (code defect): a source whose [Name] is empty should get no fetch,
    base-branch or map-branch command.  The fetch loop skips it with a
    notice, but the mapping loop does not: for an unnamed source with one
    mapping it emits a duplicate of the never-fetched base branch
    [citizenkane/c31f/base] into [citizenkane/c31f/map/0], then the zoom
    and merge commands. *)
Theorem unnamed_source_is_mapped :
  Name unnamed_src = ""
  /\ In "skipping unnamed source"
        (diagnostics (stdout (snd (run (decodes_to (mkManifest [unnamed_src])) sample_env))))
  /\ commands (stdout (snd (run (decodes_to (mkManifest [unnamed_src])) sample_env)))
     = [SetE;
        GitDup "master" "citizenkane/c31f/dst";
        GitDup "citizenkane/c31f/base" "citizenkane/c31f/map/0";
        GitZoomIn "citizenkane/c31f/map/0" "/a";
        GitZoomOut "9e9e9e9e" "citizenkane/c31f/map/0" "/x";
        GitMerge "citizenkane/c31f/dst" "citizenkane/c31f/map/0"].
Proof.
  split; [reflexivity|]. split; [|vm_compute; reflexivity].
  vm_compute. tauto.
Qed.

(** *** C4 *)

(** C4, the claim as stated fails: the source names ["a"] and ["a/"] are
    distinct and have the same base branch, because [path.Join] cleans the
    joined name. *)
Lemma base_names_collide :
  Name a_src <> Name a_slash_src
  /\ baseBranch a_src "c31f" = baseBranch a_slash_src "c31f".
Proof. split; [discriminate|vm_compute; reflexivity]. Qed.

(** C4 (amended): the branch names depend on the build id, the source name
    and the mapping index only; two distinct mapping indices of one source
    never give the same map branch; and two distinct source names made of
    real path elements give distinct base branches and distinct map
    branches. *)
Theorem branch_names_distinct (buildid : string) :
  (forall s1 s2, Name s1 = Name s2 -> baseBranch s1 buildid = baseBranch s2 buildid)
  /\ (forall s1 s2 i, Name s1 = Name s2 ->
        mapBranch s1 buildid i = mapBranch s2 buildid i)
  /\ (forall s i j, i <> j -> mapBranch s buildid i <> mapBranch s buildid j)
  /\ (forall s1 s2, name_ok (Name s1) = true -> name_ok (Name s2) = true ->
        Name s1 <> Name s2 -> baseBranch s1 buildid <> baseBranch s2 buildid)
  /\ (forall s1 s2 i j, name_ok (Name s1) = true -> name_ok (Name s2) = true ->
        Name s1 <> Name s2 -> mapBranch s1 buildid i <> mapBranch s2 buildid j).
Proof.
  repeat split.
  - intros s1 s2 E. unfold baseBranch. now rewrite E.
  - intros s1 s2 i E. unfold mapBranch. now rewrite E.
  - intros s i j Hij E. apply Hij.
    rewrite !mapBranch_bytes_index in E.
    apply string_of_list_ascii_inj in E.
    apply clean_append_real_inj in E.
    + now apply itoa_inj, list_ascii_of_string_inj.
    + reflexivity.
    + rewrite split_itoa. cbn. now rewrite itoa_real.
    + rewrite split_itoa. cbn. now rewrite itoa_real.
  - intros s1 s2 H1 H2 Hne E. apply Hne.
    rewrite !baseBranch_bytes in E.
    apply string_of_list_ascii_inj in E.
    apply clean_append_real_inj in E; try assumption; try reflexivity.
    now apply list_ascii_of_string_inj.
  - intros s1 s2 i j H1 H2 Hne E. apply Hne.
    rewrite !mapBranch_bytes in E.
    apply string_of_list_ascii_inj in E.
    apply clean_append_real_inj in E;
      try reflexivity; try (now apply name_index_real).
    apply (f_equal split) in E. rewrite !split_app_slash, !split_itoa in E.
    apply app_inj_tail in E as [E _].
    apply list_ascii_of_string_inj.
    rewrite <- (join_split (list_ascii_of_string (Name s1))), E.
    apply join_split.
Qed.


Lemma branch_names_distinct_witness :
  baseBranch docs_src "c31f" <> baseBranch tools_src "c31f"
  /\ mapBranch docs_src "c31f" 0 <> mapBranch tools_src "c31f" 0
  /\ mapBranch a_slash_src "c31f" 0 <> mapBranch a_slash_src "c31f" 1
  /\ baseBranch docs_src "c31f" = baseBranch (mkSource "docs" "x" "y" "z" []) "c31f".
Proof.
  destruct (branch_names_distinct "c31f") as (Hfun & _ & Hidx & Hbase & Hmap).
  split; [|split; [|split]].
  - apply Hbase; [reflexivity|reflexivity|discriminate].
  - apply Hmap; [reflexivity|reflexivity|discriminate].
  - apply Hidx. discriminate.
  - apply Hfun. reflexivity.
Defined.

(** *** C5 *)

(** C5, the claim as stated fails: the build identifier of a run has four
    characters, not eight. *)
Lemma buildid_not_eight :
  fst (new_buildid sample_env (mkSt [] [] 0)) = "c31f"
  /\ String.length (fst (new_buildid sample_env (mkSt [] [] 0))) <> 8.
Proof. split; [vm_compute; reflexivity|vm_compute; discriminate]. Qed.

(** C5 (amended): the build identifier, generated once at the start of the
    run and announced on the first line of the output, is a 4-character
    hexadecimal token: the two hexadecimal digits of each of the first two
    bytes read from the random source. *)
Theorem buildid_four_hex (toml_Decode : string -> result Manifest) (env : Env) :
  let buildid := fst (new_buildid env (mkSt [] [] 0)) in
  String.length buildid = 4
  /\ forallb is_hexdigit (list_ascii_of_string buildid) = true
  /\ buildid = hex_EncodeToString [rand_Reader env 0; rand_Reader env 1]
  /\ hd_error (stdout (snd (run toml_Decode env)))
     = Some (Diag ("# Starting build " ++ buildid) 1).
Proof.
  cbv zeta. split; [|split; [|split]].
  - reflexivity.
  - unfold new_buildid, bind, RandomString, ret.
    cbn [fst snd rpos seq map hex_EncodeToString flat_map List.app
         string_of_list_ascii substring list_ascii_of_string forallb].
    now rewrite !hexdigit_is_hex.
  - reflexivity.
  - rewrite run_eq. cbv zeta.
    destruct (os_Open env) as [[data|e]|e]; try reflexivity.
    destruct (toml_Decode data) as [m|e]; try reflexivity.
    cbn [snd].
    destruct (generate_stdout env (fst (new_buildid env (mkSt [] [] 0))) m
                (mkSt [Diag ("# Starting build "
                               ++ fst (new_buildid env (mkSt [] [] 0))) 1; Sh SetE]
                      [] 32)) as [l Hl].
    rewrite Hl. reflexivity.
Qed.

(** *** C6 *)

(** C6, the claim as stated fails: with two sources of one mapping each,
    the first of them unnamed, the script holds one fetch command, not
    two. *)
Lemma two_sources_one_fetch :
  length (Mapping unnamed_src) = 1 /\ length (Mapping docs_src) = 1
  /\ length (filter is_fetch
       (commands (stdout (snd (run (decodes_to (mkManifest [unnamed_src; docs_src]))
                                   sample_env))))) <> 2.
Proof. split; [reflexivity|]. split; [reflexivity|]. vm_compute. discriminate. Qed.

(** C6 (amended): for a manifest of exactly two sources with non-empty
    names, each with exactly one mapping, the commands of the script are,
    after [set -e]: the two fetches, the duplicate-to-destination, then
    for each source in manifest order its duplicate-to-map, its zoom-in
    when the cleaned from-path is not ["/"], its zoom-out when the cleaned
    to-path is not empty, and its merge-layer. *)
Theorem two_named_sources_script
  (toml_Decode : string -> result Manifest) (env : Env) (data : string)
  (s1 s2 : Source) (m1 m2 : string * string) :
  os_Open env = Ok (Ok data) ->
  toml_Decode data = Ok (mkManifest [s1; s2]) ->
  Mapping s1 = [m1] -> Mapping s2 = [m2] ->
  Name s1 <> "" -> Name s2 <> "" ->
  let buildid := fst (new_buildid env (mkSt [] [] 0)) in
  exists tmp1 tmp2,
    commands (stdout (snd (run toml_Decode env)))
    = ([SetE;
        GitFetch (Url s1) (Branch s1) (baseBranch s1 buildid);
        GitFetch (Url s2) (Branch s2) (baseBranch s2 buildid);
        GitDup "master" (dstBranch buildid)]
         ++ layer buildid s1 0 m1 tmp1
         ++ layer buildid s2 0 m2 tmp2)%list.
Proof.
  intros Ho Hd H1 H2 N1 N2. cbv zeta.
  apply String.eqb_neq in N1, N2.
  rewrite run_eq, Ho, Hd. cbv zeta.
  generalize (fst (new_buildid env (mkSt [] [] 0))) as buildid. intros buildid.
  exists (substring 0 8 (hex_EncodeToString (map (rand_Reader env) (seq 32 32)))),
         (substring 0 8 (hex_EncodeToString (map (rand_Reader env) (seq 64 32)))).
  unfold generate, for_each, fetch_source, map_source, apply_defaults, layer.
  cbn [for_range Sources]. cbv beta. rewrite N1, N2, H1, H2.
  cbn [for_range]. unfold apply_mapping.
  rewrite !Clean_eqb_empty.
  destruct (Clean (fst m1) =? "/"), (Clean (fst m2) =? "/");
    run_steps; reflexivity.
Qed.

Lemma two_named_sources_script_witness :
  let buildid := fst (new_buildid sample_env (mkSt [] [] 0)) in
  exists tmp1 tmp2,
    commands (stdout (snd (run (decodes_to (mkManifest [docs_src; tools_src]))
                               sample_env)))
    = ([SetE;
        GitFetch (Url docs_src) (Branch docs_src) (baseBranch docs_src buildid);
        GitFetch (Url tools_src) (Branch tools_src) (baseBranch tools_src buildid);
        GitDup "master" (dstBranch buildid)]
         ++ layer buildid docs_src 0 ("/", "/documentation") tmp1
         ++ layer buildid tools_src 0 ("/cmd/", "/tools") tmp2)%list.
Proof.
  apply (two_named_sources_script
           (decodes_to (mkManifest [docs_src; tools_src])) sample_env
           "[[source]]" docs_src tools_src ("/", "/documentation") ("/cmd/", "/tools"));
    [reflexivity|reflexivity|reflexivity|reflexivity|discriminate|discriminate].
Defined.

(** *** C7 *)

(** C7 (code defect): every line of commentary in the script should begin
    with [#].  In every run each line of commentary does, or is the notice
    printed for an unnamed source; that notice does not, and stands in the
    script of a manifest with an unnamed source as the line
    [skipping unnamed source]. *)
Theorem skip_notice_is_not_a_comment :
  (forall toml_Decode env,
     forallb comment_or_skip (stdout (snd (run toml_Decode env))) = true)
  /\ In (Diag "skipping unnamed source" 1)
        (stdout (snd (run (decodes_to (mkManifest [unnamed_src])) sample_env)))
  /\ In "skipping unnamed source"
        (lines (script (stdout (snd (run (decodes_to (mkManifest [unnamed_src]))
                                         sample_env)))))
  /\ begins_with_hash "skipping unnamed source" = false.
Proof.
  split; [|split; [|split; [|reflexivity]]].
  - intros toml_Decode env. rewrite run_eq. cbv zeta.
    destruct (os_Open env) as [[data|e]|e]; try reflexivity.
    destruct (toml_Decode data) as [m|e]; try reflexivity.
    cbn [snd]. now apply generate_comment_or_skip.
  - vm_compute. tauto.
  - vm_compute. tauto.
Qed.

(** *** C8 *)

(** C8, the claim as stated fails: with a manifest that opens, reads and
    decodes, the process still terminates abnormally when the read of the
    random source fails: [RandomString] panics, here for the build id,
    before the manifest is opened. *)
Lemma random_failure_aborts_usable_manifest :
  ~ manifest_unusable (decodes_to (mkManifest [docs_src])) sample_env
  /\ process.exit_code
       (process.run (decodes_to (mkManifest [docs_src]))
                    (process.broken_random sample_env)) = 2
  /\ process.final_stderr
       (process.run (decodes_to (mkManifest [docs_src]))
                    (process.broken_random sample_env))
     = ["panic: open /dev/urandom: no such file or directory"].
Proof.
  split; [|split].
  - cbv. tauto.
  - vm_compute. reflexivity.
  - vm_compute. reflexivity.
Qed.

(** C8 (amended): the process terminates abnormally, with a diagnostic on
    standard error, exactly when [UPSTREAM] cannot be opened, cannot be
    read or does not decode, or when a read of the random source that the
    run performs fails.  The status is 1 ([log.Fatal]) exactly when the
    build id was read and the manifest is unusable, and 2 (the panic of
    [RandomString]) exactly when a read fails: the read for the build id,
    or the read for the staging name of a zoom-out.  In every other case,
    whatever the sources hold, the process exits with status 0 and
    standard error stays empty; and with a random source that never fails
    the process is the run of [upstream]. *)
Theorem process_exit_status
  (toml_Decode : string -> result Manifest) (w : process.World) :
  let o := process.run toml_Decode w in
  (process.exit_code o <> 0 <->
   manifest_unusable toml_Decode (process.world_env w)
   \/ process.random_read_fails toml_Decode w)
  /\ (process.exit_code o = 1 <->
      process.rand_error w 0 = None
      /\ manifest_unusable toml_Decode (process.world_env w))
  /\ (process.exit_code o = 2 <-> process.random_read_fails toml_Decode w)
  /\ (process.exit_code o <> 0 -> process.final_stderr o <> [])
  /\ (process.exit_code o = 0 -> process.final_stderr o = [])
  /\ ((forall pos, process.rand_error w pos = None) ->
      o = process.Returned (fst (run toml_Decode (process.world_env w)))
                           (snd (run toml_Decode (process.world_env w)))).
Proof.
  cbv zeta.
  pose proof (process_facts.run_cases toml_Decode w) as Hrun. cbv zeta in Hrun.
  pose proof (run_eq toml_Decode (process.world_env w)) as Hup. cbv zeta in Hup.
  set (o := process.run toml_Decode w) in *.
  set (MU := manifest_unusable toml_Decode (process.world_env w)).
  set (RF := process.random_read_fails toml_Decode w).
  assert (Hcases :
    (process.exit_code o = 0 /\ ~ MU /\ ~ RF /\ process.final_stderr o = []
     /\ o = process.Returned (fst (run toml_Decode (process.world_env w)))
                             (snd (run toml_Decode (process.world_env w))))
    \/ (process.exit_code o = 1 /\ MU /\ ~ RF /\ process.rand_error w 0 = None
        /\ process.final_stderr o <> []
        /\ o = process.Returned (fst (run toml_Decode (process.world_env w)))
                                (snd (run toml_Decode (process.world_env w))))
    \/ (process.exit_code o = 2 /\ RF /\ process.final_stderr o <> []
        /\ ~ (process.rand_error w 0 = None /\ MU)
        /\ ~ (forall pos, process.rand_error w pos = None))).
  { unfold MU, RF, manifest_unusable, process.random_read_fails.
    destruct (process.rand_error w 0) as [e0|] eqn:E0.
    { right. right. rewrite Hrun.
      cbn [process.exit_code process.final_stderr stderr List.app].
      split; [reflexivity|]. split; [left; discriminate|].
      split; [discriminate|]. split; [intros [H _]; discriminate|].
      intros H. rewrite H in E0. discriminate. }
    destruct (os_Open (process.world_env w)) as [[data|e]|e] eqn:EO.
    2,3: right; left; rewrite Hrun, Hup;
         cbn [process.exit_code process.final_stderr stderr fst snd];
         (split; [reflexivity|]); (split; [exact I|]);
         (split; [intros [H|(d & m & k & H & _)]; [congruence|discriminate]|]);
         (split; [reflexivity|]); (split; [discriminate|reflexivity]).
    destruct (toml_Decode data) as [m|e] eqn:ED.
    2:{ right. left. rewrite Hrun, Hup.
        cbn [process.exit_code process.final_stderr stderr fst snd].
        split; [reflexivity|]. split; [exact I|].
        split; [|split; [reflexivity|split; [discriminate|reflexivity]]].
        intros [H|(d & m & k & H1 & H2 & _)]; [congruence|].
        injection H1 as <-. congruence. }
    destruct (process.reads_ok w 32 (length (flat_map Mapping (Sources m)))) eqn:R.
    - left. rewrite Hrun, Hup.
      cbn [process.exit_code process.final_stderr fst snd].
      split; [reflexivity|]. split; [tauto|].
      split; [|split; [apply generate_stderr|reflexivity]].
      intros [H|(d & m' & k & H1 & H2 & Hk & He)]; [congruence|].
      injection H1 as <-. rewrite ED in H2. injection H2 as <-.
      assert (process.reads_ok w 32 (length (flat_map Mapping (Sources m))) = false)
        by (apply process_facts.reads_ok_false_iff; eauto).
      congruence.
    - right. right. destruct Hrun as (e & s' & Hrun). rewrite Hrun.
      cbn [process.exit_code process.final_stderr].
      apply process_facts.reads_ok_false_iff in R as (k & Hk & He).
      split; [reflexivity|].
      split; [right; exists data, m, k; auto|].
      split.
      { intros Hnil. apply app_eq_nil in Hnil as [_ Hnil]. discriminate. }
      split; [intros [_ []]|].
      intros H. apply He, H. }
  destruct Hcases as [(Hc & HM & HR & Hs & Ho)
                     |[(Hc & HM & HR & H0 & Hs & Ho)|(Hc & HR & Hs & HM & Hn)]];
    rewrite Hc;
    (split; [split; [intros; tauto || lia|intros; try lia; tauto]|]);
    (split; [split; [intros; try lia; try tauto|intros; try lia; tauto]|]);
    (split; [split; [intros; try lia; tauto|intros; try lia; tauto]|]);
    (split; [intros; try lia; assumption|]);
    (split; [intros; try lia; assumption|]);
    intros; try assumption; tauto.
Qed.

Lemma process_exit_status_witness :
  process.exit_code
    (process.run (decodes_to (mkManifest [unnamed_src; nomap_src]))
                 (process.broken_random sample_env)) = 2
  /\ process.exit_code
       (process.run (fun _ => Err "bad manifest") (process.healthy sample_env)) = 1
  /\ process.run (decodes_to (mkManifest [unnamed_src; nomap_src]))
                 (process.healthy sample_env)
     = process.Returned
         (fst (run (decodes_to (mkManifest [unnamed_src; nomap_src])) sample_env))
         (snd (run (decodes_to (mkManifest [unnamed_src; nomap_src])) sample_env)).
Proof.
  pose proof (process_exit_status (decodes_to (mkManifest [unnamed_src; nomap_src]))
                (process.broken_random sample_env)) as (_ & _ & H2 & _).
  pose proof (process_exit_status (fun _ => Err "bad manifest")
                (process.healthy sample_env)) as (_ & H1 & _).
  pose proof (process_exit_status (decodes_to (mkManifest [unnamed_src; nomap_src]))
                (process.healthy sample_env)) as (_ & _ & _ & _ & _ & H0).
  split; [|split].
  - apply H2. left. discriminate.
  - apply H1. split; [reflexivity|exact I].
  - apply H0. reflexivity.
Defined.

(** *** C9 *)

(** C9: path cleaning is idempotent, and it maps ["/a/b/"] to ["/a/b"]
    and ["a//b/.."] to ["a"]. *)
Theorem Clean_idempotent :
  (forall p, Clean (Clean p) = Clean p)
  /\ Clean "/a/b/" = "/a/b"
  /\ Clean "a//b/.." = "a".
Proof.
  split; [apply Clean_idem|]. split; reflexivity.
Qed.

(** *** C10 *)

(** C10: path cleaning never yields the empty string, so the guard on the
    to-path is always true: every iteration of the mapping loop emits,
    between its duplicate-to-map (and optional zoom-in) and its
    merge-layer, one zoom-out on the cleaned to-path; for the identity
    mapping that path is ["/"]; and a whole run emits as many zoom-outs as
    the manifest has mappings. *)
Theorem zoom_out_always_emitted :
  (forall p, Clean p <> "")
  /\ (forall env buildid src base mapid mapping s,
        negb (Clean (snd mapping) =? "") = true
        /\ exists tmp,
             commands (stdout (snd (apply_mapping env buildid src base mapid mapping s)))
             = (commands (stdout s)
                  ++ [GitDup base (mapBranch src buildid mapid)]
                  ++ (if Clean (fst mapping) =? "/" then []
                      else [GitZoomIn (mapBranch src buildid mapid) (Clean (fst mapping))])
                  ++ [GitZoomOut tmp (mapBranch src buildid mapid) (Clean (snd mapping));
                      GitMerge (dstBranch buildid) (mapBranch src buildid mapid)])%list)
  /\ (forall env buildid src base mapid s,
        exists tmp,
          In (GitZoomOut tmp (mapBranch src buildid mapid) "/")
             (commands (stdout (snd (apply_mapping env buildid src base mapid ("/", "/") s)))))
  /\ (forall toml_Decode env data m,
        os_Open env = Ok (Ok data) -> toml_Decode data = Ok m ->
        length (filter is_zoomOut (commands (stdout (snd (run toml_Decode env)))))
        = length (flat_map Mapping (Sources m))).
Proof.
  split; [apply Clean_not_empty|]. split; [|split].
  - intros env buildid src base mapid mapping [o e r].
    split; [now rewrite Clean_eqb_empty|].
    unfold apply_mapping. rewrite Clean_eqb_empty.
    exists (substring 0 8 (hex_EncodeToString (map (rand_Reader env) (seq r 32)))).
    destruct (Clean (fst mapping) =? "/");
      cbv -[baseBranch mapBranch dstBranch path.Clean substring hex_EncodeToString
            String.append List.app commands seq map];
      unfold commands; rewrite !flat_map_app; cbn [flat_map List.app];
      rewrite <- ?app_assoc; reflexivity.
  - intros env buildid src base mapid [o e r].
    exists (substring 0 8 (hex_EncodeToString (map (rand_Reader env) (seq r 32)))).
    unfold apply_mapping.
    change (Clean (fst ("/", "/"))) with "/".
    change (Clean (snd ("/", "/"))) with "/".
    cbv -[baseBranch mapBranch dstBranch path.Clean substring hex_EncodeToString
          String.append List.app commands seq map In].
    unfold commands. rewrite !flat_map_app. cbn [flat_map List.app].
    rewrite !in_app_iff. cbn [In]. auto 12.
  - intros toml_Decode env data m Ho Hd.
    rewrite run_eq, Ho, Hd. cbv zeta. cbn [snd].
    match goal with
    | |- length (filter is_zoomOut (commands (stdout ?s))) = _ =>
        change (zoomOuts s = length (flat_map Mapping (Sources m)))
    end.
    now rewrite zoomOuts_generate.
Qed.

Lemma zoom_out_always_emitted_witness :
  length (filter is_zoomOut
            (commands (stdout (snd (run (decodes_to (mkManifest [unnamed_src; docs_src; nomap_src]))
                                        sample_env)))))
  = length (flat_map Mapping (Sources (mkManifest [unnamed_src; docs_src; nomap_src]))).
Proof.
  destruct zoom_out_always_emitted as (_ & _ & _ & H).
  apply (H (decodes_to (mkManifest [unnamed_src; docs_src; nomap_src])) sample_env
           "[[source]]"); reflexivity.
Defined.

(* ================================================================= *)
(** ** Further properties of the code *)

Import plan plan_facts clean_facts helper_facts.
Local Open Scope string_scope.

(** *** [path.Clean] as the mapping loop uses it *)

(** X1: the cleaned path is rooted exactly when the path is: [Clean]
    never adds or removes the leading slash. *)
Theorem Clean_keeps_root (p : string) :
  is_rooted (Clean p) = is_rooted p.
Proof.
  unfold Clean. rewrite rooted_string, is_rooted_bytes. apply clean_rooted_iff.
Qed.

(** X2: a cleaned path ends with a slash only when it is the root ["/"]. *)
Theorem Clean_trailing_slash_is_root (p : string) :
  ends_with_slash (Clean p) = true -> Clean p = "/".
Proof.
  unfold Clean. rewrite ends_with_slash_string. intros H.
  now rewrite (clean_trailing _ H).
Qed.

Lemma Clean_trailing_slash_is_root_witness : Clean "//a/..//" = "/".
Proof. apply Clean_trailing_slash_is_root. reflexivity. Defined.

(** X3: a path made of real elements only (no empty, [.] or [..]
    element), relative or with one leading slash, is left as it is. *)
Theorem Clean_fixes_real_paths (p : string) :
  name_ok p = true -> Clean p = p /\ Clean ("/" ++ p) = "/" ++ p.
Proof.
  intros H. unfold name_ok in H. unfold Clean. split.
  - rewrite clean_real_path by assumption. apply string_of_list_ascii_of_string.
  - cbn [String.append list_ascii_of_string].
    rewrite clean_real_path_rooted by assumption.
    cbn [string_of_list_ascii]. now rewrite string_of_list_ascii_of_string.
Qed.

Lemma Clean_fixes_real_paths_witness :
  Clean "docs/api.v2" = "docs/api.v2" /\ Clean "/docs/api.v2" = "/docs/api.v2".
Proof. apply (Clean_fixes_real_paths "docs/api.v2"). reflexivity. Defined.

(** X4: [Clean] does not see redundant separators, [.] elements, or a
    real element followed by [..]: [p/] cleans as [p], [a//b] and [a/./b]
    as [a/b], and [a/x/../b] as [a/b]. *)
Theorem Clean_ignores_redundancy :
  (forall p, p <> "" -> Clean (p ++ "/") = Clean p)
  /\ (forall a b, Clean (a ++ "//" ++ b) = Clean (a ++ "/" ++ b))
  /\ (forall a b, Clean (a ++ "/./" ++ b) = Clean (a ++ "/" ++ b))
  /\ (forall a x b, real (list_ascii_of_string x) = true ->
        Clean (a ++ "/" ++ x ++ "/../" ++ b) = Clean (a ++ "/" ++ b)).
Proof.
  unfold Clean. split; [|split; [|split]].
  - intros p Hp. rewrite list_ascii_of_string_app. cbn [list_ascii_of_string].
    rewrite clean_trailing_slash; [reflexivity|].
    intros E. apply Hp. apply list_ascii_of_string_inj. exact E.
  - intros a b. rewrite !list_ascii_of_string_app. cbn [list_ascii_of_string List.app].
    f_equal. apply clean_tail_congr. intros rooted st. reflexivity.
  - intros a b. rewrite !list_ascii_of_string_app. cbn [list_ascii_of_string List.app].
    f_equal. apply clean_tail_congr. intros rooted st.
    change ("."%char :: "/"%char :: list_ascii_of_string b)
      with (["."%char] ++ "/"%char :: list_ascii_of_string b)%list.
    rewrite split_elem_slash by reflexivity. reflexivity.
  - intros a x b Hx. rewrite !list_ascii_of_string_app.
    cbn [list_ascii_of_string List.app]. rewrite ?list_ascii_of_string_app.
    cbn [list_ascii_of_string List.app].
    f_equal. apply clean_tail_congr. intros rooted st.
    change ("/"%char :: "."%char :: "."%char :: "/"%char :: list_ascii_of_string b)
      with ("/"%char :: (dd ++ "/"%char :: list_ascii_of_string b))%list.
    rewrite split_elem_slash by now apply real_inv.
    rewrite split_elem_slash by reflexivity.
    cbn [fold_left]. now rewrite astep_push_pop.
Qed.

Lemma Clean_ignores_redundancy_witness :
  Clean ("/a" ++ "/") = Clean "/a"
  /\ Clean ("src" ++ "/" ++ "tmp" ++ "/../" ++ "lib") = Clean ("src" ++ "/" ++ "lib").
Proof.
  destruct Clean_ignores_redundancy as (H1 & _ & _ & H4). split.
  - apply H1. discriminate.
  - apply H4. reflexivity.
Defined.

(** *** Random tokens *)

(** X5: [RandomString] returns 64 lowercase hexadecimal characters that
    spell, two digits a byte, the next 32 bytes of the random source; it
    consumes exactly those 32 bytes and prints nothing; and two tokens are
    equal only when the bytes are. *)
Theorem RandomString_token (env : Env) (s : St) :
  String.length (fst (RandomString env s)) = 64
  /\ forallb is_hexdigit (list_ascii_of_string (fst (RandomString env s))) = true
  /\ snd (RandomString env s) = mkSt (stdout s) (stderr s) (rpos s + 32)
  /\ (forall env' s',
        fst (RandomString env s) = fst (RandomString env' s') <->
        map (rand_Reader env) (seq (rpos s) 32)
        = map (rand_Reader env') (seq (rpos s') 32)).
Proof.
  unfold RandomString. cbn [fst snd]. split; [|split; [|split]].
  - now rewrite hex_length, length_map, length_seq.
  - apply hex_digits.
  - reflexivity.
  - intros env' s'. split; [apply hex_inj|]. now intros ->.
Qed.

Lemma RandomString_token_witness :
  fst (RandomString sample_env (mkSt [] [] 0))
  = fst (RandomString (mkEnv (rand_Reader sample_env) (Err "no file"))
                      (mkSt [Sh SetE] [] 0)).
Proof.
  destruct (RandomString_token sample_env (mkSt [] [] 0)) as (_ & _ & _ & H).
  apply (H (mkEnv (rand_Reader sample_env) (Err "no file")) (mkSt [Sh SetE] [] 0)).
  reflexivity.
Defined.

(** X6: the build id is decided by the first two random bytes of the run
    and by nothing else: two runs have the same build id exactly when
    these two bytes agree. *)
Theorem buildid_two_bytes (env env' : Env) :
  fst (new_buildid env (mkSt [] [] 0)) = fst (new_buildid env' (mkSt [] [] 0))
  <-> rand_Reader env 0 = rand_Reader env' 0
      /\ rand_Reader env 1 = rand_Reader env' 1.
Proof.
  rewrite !new_buildid_eq. cbn [rpos seq map]. split.
  - intros H. apply hex_inj in H. now injection H.
  - now intros [-> ->].
Qed.

Lemma buildid_two_bytes_witness :
  fst (new_buildid sample_env (mkSt [] [] 0))
  = fst (new_buildid (mkEnv (fun n => nth n [Byte.xc3; Byte.x1f] Byte.x00) (Err "no file"))
                     (mkSt [] [] 0)).
Proof.
  apply (buildid_two_bytes sample_env
           (mkEnv (fun n => nth n [Byte.xc3; Byte.x1f] Byte.x00) (Err "no file"))).
  split; reflexivity.
Defined.

(** X7: [zoomOut] prints its comment line and one zoom-out command and
    nothing else; the staging directory of the command is 8 hexadecimal
    characters spelling the next 4 random bytes, although 32 bytes are
    consumed; standard error is untouched. *)
Theorem zoomOut_effect (env : Env) (branch dir : string) (s : St) :
  let tmp := hex_EncodeToString (map (rand_Reader env) (seq (rpos s) 4)) in
  snd (zoomOut env branch dir s)
  = mkSt (stdout s ++ [Diag ("# zoomOut(" ++ branch ++ ", " ++ dir ++ ")") 1;
                       Sh (GitZoomOut tmp branch dir)])
         (stderr s) (rpos s + 32)
  /\ String.length tmp = 8
  /\ forallb is_hexdigit (list_ascii_of_string tmp) = true.
Proof.
  cbv zeta. split; [|split].
  - rewrite <- tmp_at_eq. destruct s as [o e r].
    unfold zoomOut, bind, printf, RandomString, tmp_at.
    cbn [fst snd stdout stderr rpos]. now rewrite <- app_assoc.
  - now rewrite hex_length, length_map, length_seq.
  - apply hex_digits.
Qed.

(** *** Runs that stop at the manifest *)

(** X8: when [UPSTREAM] cannot be opened, read or decoded, the run has
    printed the two header lines and nothing else: the script is
    [# Starting build <id>] and [set -e], no git command is printed, one
    message is on standard error and only the 32 random bytes of the build
    id are consumed. *)
Theorem failed_run_prints_header_only
  (toml_Decode : string -> result Manifest) (env : Env) :
  manifest_unusable toml_Decode env ->
  let buildid := fst (new_buildid env (mkSt [] [] 0)) in
  exists e,
    run toml_Decode env
    = (Exit1, mkSt [Diag ("# Starting build " ++ buildid) 1; Sh SetE] [e] 32)
    /\ script (stdout (snd (run toml_Decode env)))
       = "# Starting build " ++ buildid ++ nl ++ "set -e" ++ nl
    /\ commands (stdout (snd (run toml_Decode env))) = [SetE].
Proof.
  intros H. cbv zeta.
  destruct (run_not_decoded toml_Decode env) as [e He].
  { unfold manifest_unusable in H. unfold decoded.
    destruct (os_Open env) as [[data|e]|e]; try reflexivity.
    destruct (toml_Decode data); [contradiction|reflexivity]. }
  exists e. rewrite He. cbn [snd stdout]. split; [reflexivity|]. split; [|reflexivity].
  unfold script. cbn [map render String.concat newlines render_cmd].
  generalize (fst (new_buildid env (mkSt [] [] 0))) as b. intros b.
  cbn [String.append]. do 17 f_equal.
  now rewrite !append_assoc_s, ?append_nil_r_s.
Qed.

Lemma failed_run_prints_header_only_witness :
  let env := mkEnv (rand_Reader sample_env) (Err "open UPSTREAM: no such file") in
  let buildid := fst (new_buildid env (mkSt [] [] 0)) in
  exists e,
    run (decodes_to (mkManifest [docs_src])) env
    = (Exit1, mkSt [Diag ("# Starting build " ++ buildid) 1; Sh SetE] [e] 32)
    /\ script (stdout (snd (run (decodes_to (mkManifest [docs_src])) env)))
       = "# Starting build " ++ buildid ++ nl ++ "set -e" ++ nl
    /\ commands (stdout (snd (run (decodes_to (mkManifest [docs_src])) env))) = [SetE].
Proof.
  apply (failed_run_prints_header_only (decodes_to (mkManifest [docs_src]))
           (mkEnv (rand_Reader sample_env) (Err "open UPSTREAM: no such file"))).
  exact I.
Defined.

(** *** The commands of a whole run *)

(** X9: for every manifest that decodes, the commands of the script are
    [set -e], then one fetch per source with a non-empty name in manifest
    order, then the duplicate of [master] into the destination branch,
    then for every source in manifest order and every one of its mappings
    in listed order, numbered from 0, the commands of that mapping, each
    zoom-out taking its staging name from the next 32 random bytes; the
    run consumes 32 random bytes for the build id and 32 per mapping. *)
Theorem run_commands
  (toml_Decode : string -> result Manifest) (env : Env) (m : Manifest) :
  decoded toml_Decode env = Some m ->
  let buildid := fst (new_buildid env (mkSt [] [] 0)) in
  commands (stdout (snd (run toml_Decode env)))
  = (SetE :: fetch_cmds buildid (Sources m)
       ++ GitDup "master" (dstBranch buildid)
       :: source_cmds env buildid 32 (Sources m))%list
  /\ rpos (snd (run toml_Decode env))
     = 32 + 32 * length (flat_map Mapping (Sources m)).
Proof.
  intros H. cbv zeta. rewrite (run_decoded _ _ _ H). cbn [snd].
  destruct (emits_generate env (fst (new_buildid env (mkSt [] [] 0))) m
              (mkSt [Diag ("# Starting build "
                             ++ fst (new_buildid env (mkSt [] [] 0))) 1; Sh SetE]
                    [] 32)) as [Hc Hr].
  split; [rewrite Hc|rewrite Hr]; reflexivity.
Qed.

Lemma run_commands_witness :
  let m := mkManifest [unnamed_src; docs_src; nomap_src; tools_src] in
  let buildid := fst (new_buildid sample_env (mkSt [] [] 0)) in
  commands (stdout (snd (run (decodes_to m) sample_env)))
  = (SetE :: fetch_cmds buildid (Sources m)
       ++ GitDup "master" (dstBranch buildid)
       :: source_cmds sample_env buildid 32 (Sources m))%list
  /\ rpos (snd (run (decodes_to m) sample_env))
     = 32 + 32 * length (flat_map Mapping (Sources m)).
Proof.
  apply (run_commands
           (decodes_to (mkManifest [unnamed_src; docs_src; nomap_src; tools_src]))
           sample_env).
  reflexivity.
Defined.

(** X10: the fetch commands of a run are, in manifest order, one for each
    source with a non-empty name, with the url and the branch of the
    source as decoded and its base branch as local ref; no other command
    of the run is a fetch. *)
Theorem run_fetches
  (toml_Decode : string -> result Manifest) (env : Env) (m : Manifest) :
  decoded toml_Decode env = Some m ->
  let buildid := fst (new_buildid env (mkSt [] [] 0)) in
  filter is_fetch (commands (stdout (snd (run toml_Decode env))))
  = map (fun src => GitFetch (Url src) (Branch src) (baseBranch src buildid))
        (filter (fun src => negb (Name src =? "")) (Sources m)).
Proof.
  intros H. cbv zeta. rewrite (run_decoded _ _ _ H). cbn [snd].
  destruct (emits_generate env (fst (new_buildid env (mkSt [] [] 0))) m
              (mkSt [Diag ("# Starting build "
                             ++ fst (new_buildid env (mkSt [] [] 0))) 1; Sh SetE]
                    [] 32)) as [Hc _].
  rewrite Hc, filter_app, filter_fetch_plan. reflexivity.
Qed.

Lemma run_fetches_witness :
  let m := mkManifest [unnamed_src; docs_src; nomap_src] in
  let buildid := fst (new_buildid sample_env (mkSt [] [] 0)) in
  filter is_fetch (commands (stdout (snd (run (decodes_to m) sample_env))))
  = map (fun src => GitFetch (Url src) (Branch src) (baseBranch src buildid))
        (filter (fun src => negb (Name src =? "")) (Sources m)).
Proof.
  apply (run_fetches (decodes_to (mkManifest [unnamed_src; docs_src; nomap_src]))
           sample_env).
  reflexivity.
Defined.

(** *** Branch names *)

(** X11: the build id of a run is a clean path element, and for such a
    build id and a source name made of real path elements the branch names
    are the plain texts [citizenkane/<id>/dst],
    [citizenkane/<id>/base/<name>] and [citizenkane/<id>/map/<name>/<index>]:
    [path.Join] changes nothing. *)
Theorem branch_names_literal :
  (forall env s, name_ok (fst (new_buildid env s)) = true)
  /\ (forall buildid,
        name_ok buildid = true ->
        dstBranch buildid = "citizenkane/" ++ buildid ++ "/dst"
        /\ (forall src, name_ok (Name src) = true ->
              baseBranch src buildid
              = "citizenkane/" ++ buildid ++ "/base/" ++ Name src)
        /\ (forall src i, name_ok (Name src) = true ->
              mapBranch src buildid i
              = "citizenkane/" ++ buildid ++ "/map/" ++ Name src ++ "/" ++ itoa i)).
Proof.
  split; [apply name_ok_buildid|].
  intros buildid Hb. split; [|split].
  - unfold dstBranch. rewrite Join_literal; [reflexivity|].
    cbn [forallb]. rewrite Hb. reflexivity.
  - intros src Hn. unfold baseBranch. rewrite Join_literal; [reflexivity|].
    cbn [forallb]. rewrite Hb, Hn. reflexivity.
  - intros src i Hn. unfold mapBranch. rewrite Join_literal; [reflexivity|].
    cbn [forallb]. rewrite Hb, Hn, name_ok_itoa. reflexivity.
Qed.

Lemma branch_names_literal_witness :
  dstBranch "c31f" = "citizenkane/" ++ "c31f" ++ "/dst"
  /\ baseBranch tools_src "c31f" = "citizenkane/" ++ "c31f" ++ "/base/" ++ Name tools_src
  /\ mapBranch tools_src "c31f" 12
     = "citizenkane/" ++ "c31f" ++ "/map/" ++ Name tools_src ++ "/" ++ itoa 12.
Proof.
  destruct branch_names_literal as [_ H].
  destruct (H "c31f" eq_refl) as (Hd & Hb & Hm).
  split; [exact Hd|]. split; [apply Hb|apply Hm]; reflexivity.
Defined.

(** X12: whatever the build id, the destination branch, the base branches
    and the map branches of sources whose names are made of real path
    elements are three disjoint families: no base branch is a map branch,
    and the destination branch is neither. *)
Theorem branch_kinds_distinct (buildid : string) :
  (forall s1 s2 i, name_ok (Name s1) = true -> name_ok (Name s2) = true ->
     baseBranch s1 buildid <> mapBranch s2 buildid i)
  /\ (forall s, name_ok (Name s) = true -> dstBranch buildid <> baseBranch s buildid)
  /\ (forall s i, name_ok (Name s) = true -> dstBranch buildid <> mapBranch s buildid i).
Proof.
  assert (Hbase : forall s, name_ok (Name s) = true ->
            forallb real (split (list_ascii_of_string "base"
                                   ++ "/"%char :: list_ascii_of_string (Name s)))%list = true).
  { intros s H. now apply real_split_cons. }
  assert (Hmap : forall s i, name_ok (Name s) = true ->
            forallb real (split (list_ascii_of_string "map"
                                   ++ "/"%char :: list_ascii_of_string (Name s)
                                   ++ "/"%char :: list_ascii_of_string (itoa i)))%list = true).
  { intros s i H. apply real_split_cons; [reflexivity|]. now apply name_index_real. }
  unfold baseBranch, mapBranch, dstBranch. split; [|split].
  - intros s1 s2 i H1 H2 E. rewrite !Join_ck in E.
    apply string_of_list_ascii_inj in E.
    cbn [flat_map] in E. rewrite !app_nil_r in E.
    change (("/"%char :: list_ascii_of_string "base")
              ++ "/"%char :: list_ascii_of_string (Name s1))%list
      with ("/"%char :: (list_ascii_of_string "base"
              ++ "/"%char :: list_ascii_of_string (Name s1)))%list in E.
    change (("/"%char :: list_ascii_of_string "map")
              ++ ("/"%char :: list_ascii_of_string (Name s2))
              ++ "/"%char :: list_ascii_of_string (itoa i))%list
      with ("/"%char :: (list_ascii_of_string "map"
              ++ "/"%char :: list_ascii_of_string (Name s2)
              ++ "/"%char :: list_ascii_of_string (itoa i)))%list in E.
    apply clean_append_real_inj in E; [discriminate|reflexivity|auto|auto].
  - intros s H E. rewrite !Join_ck in E.
    apply string_of_list_ascii_inj in E.
    cbn [flat_map] in E. rewrite !app_nil_r in E.
    change (("/"%char :: list_ascii_of_string "base")
              ++ "/"%char :: list_ascii_of_string (Name s))%list
      with ("/"%char :: (list_ascii_of_string "base"
              ++ "/"%char :: list_ascii_of_string (Name s)))%list in E.
    apply clean_append_real_inj in E; [discriminate|reflexivity|reflexivity|auto].
  - intros s i H E. rewrite !Join_ck in E.
    apply string_of_list_ascii_inj in E.
    cbn [flat_map] in E. rewrite !app_nil_r in E.
    change (("/"%char :: list_ascii_of_string "map")
              ++ ("/"%char :: list_ascii_of_string (Name s))
              ++ "/"%char :: list_ascii_of_string (itoa i))%list
      with ("/"%char :: (list_ascii_of_string "map"
              ++ "/"%char :: list_ascii_of_string (Name s)
              ++ "/"%char :: list_ascii_of_string (itoa i)))%list in E.
    apply clean_append_real_inj in E; [discriminate|reflexivity|reflexivity|auto].
Qed.

Lemma branch_kinds_distinct_witness :
  baseBranch (mkSource "map/docs/0" "" "" "" []) "c31f" <> mapBranch docs_src "c31f" 0
  /\ dstBranch "c31f" <> baseBranch docs_src "c31f".
Proof.
  destruct (branch_kinds_distinct "c31f") as (H1 & H2 & _). split.
  - apply H1; reflexivity.
  - apply H2. reflexivity.
Defined.

(** X13: source names are not checked: a name that begins with two [..]
    elements steps out of the build's namespace.  Whatever the build id
    (a single path element), the base branch of a source named
    [../../<n>] is [citizenkane/<n>]. *)
Theorem dotdot_name_leaves_build_namespace (buildid n : string) (src : Source) :
  real (list_ascii_of_string buildid) = true ->
  name_ok n = true ->
  Name src = "../../" ++ n ->
  baseBranch src buildid = "citizenkane/" ++ n.
Proof.
  intros Hb Hn Hname. unfold baseBranch. rewrite Hname, Join_ck.
  cbn [flat_map]. rewrite app_nil_r.
  transitivity (string_of_list_ascii
                  (clean (list_ascii_of_string "citizenkane"
                            ++ "/"%char :: list_ascii_of_string n)%list)).
  - f_equal.
    change (list_ascii_of_string ("../../" ++ n))
      with (dd ++ "/"%char :: dd ++ "/"%char :: list_ascii_of_string n)%list.
    change ((("c"%char :: list_ascii_of_string "itizenkane"
                ++ "/"%char :: list_ascii_of_string buildid)
               ++ ("/"%char :: list_ascii_of_string "base")
               ++ "/"%char :: dd ++ "/"%char :: dd ++ "/"%char :: list_ascii_of_string n)%list)
      with (("c"%char :: list_ascii_of_string "itizenkane"
               ++ "/"%char :: list_ascii_of_string buildid)
              ++ "/"%char :: list_ascii_of_string "base"
              ++ "/"%char :: dd ++ "/"%char :: (dd ++ "/"%char :: list_ascii_of_string n))%list.
    rewrite clean_dotdot_elim by reflexivity.
    change (("c"%char :: list_ascii_of_string "itizenkane"
               ++ "/"%char :: list_ascii_of_string buildid)
              ++ "/"%char :: dd ++ "/"%char :: list_ascii_of_string n)%list
      with (list_ascii_of_string "citizenkane"
              ++ "/"%char :: list_ascii_of_string buildid
              ++ "/"%char :: dd ++ "/"%char :: list_ascii_of_string n)%list.
    now rewrite clean_dotdot_elim.
  - rewrite clean_real_path.
    + rewrite string_of_list_ascii_app. cbn [string_of_list_ascii].
      rewrite !string_of_list_ascii_of_string. reflexivity.
    + apply real_split_cons; [reflexivity|exact Hn].
Qed.

Lemma dotdot_name_leaves_build_namespace_witness :
  baseBranch (mkSource "../../x" "" "" "" []) "c31f" = "citizenkane/" ++ "x"
  /\ baseBranch (mkSource "../../x" "" "" "" []) "07ab" = "citizenkane/" ++ "x".
Proof.
  split.
  - apply (dotdot_name_leaves_build_namespace "c31f" "x"); reflexivity.
  - apply (dotdot_name_leaves_build_namespace "07ab" "x"); reflexivity.
Defined.

(** X14: empty elements do not count for [path.Join]; hence the base
    branch of a source with an empty name is [Join] of
    [citizenkane], the build id and [base] alone, and its map branches
    carry the index only. *)
Theorem Join_ignores_empty_elements :
  (forall l1 l2, Join (l1 ++ "" :: l2) = Join (l1 ++ l2))
  /\ (forall src buildid,
        Name src = "" ->
        baseBranch src buildid = Join ["citizenkane"; buildid; "base"]
        /\ forall i,
             mapBranch src buildid i = Join ["citizenkane"; buildid; "map"; itoa i]).
Proof.
  split; [apply Join_skips_empty|].
  intros src buildid H. unfold baseBranch, mapBranch. rewrite H. split.
  - apply (Join_skips_empty ["citizenkane"; buildid; "base"] []).
  - intros i. apply (Join_skips_empty ["citizenkane"; buildid; "map"] [itoa i]).
Qed.

Lemma Join_ignores_empty_elements_witness :
  baseBranch unnamed_src "c31f" = Join ["citizenkane"; "c31f"; "base"]
  /\ mapBranch unnamed_src "c31f" 3 = Join ["citizenkane"; "c31f"; "map"; itoa 3].
Proof.
  destruct Join_ignores_empty_elements as [_ H].
  destruct (H unnamed_src "c31f" eq_refl) as [Hb Hm].
  split; [exact Hb|apply Hm].
Defined.

(** *** The paths given to git *)

(** X15: in every run, the directory of every zoom-in and zoom-out command
    is a cleaned path (cleaning it again changes nothing); the directory
    of a zoom-in is never the root ["/"] and that of a zoom-out is never
    empty. *)
Theorem zoom_directories_are_clean
  (toml_Decode : string -> result Manifest) (env : Env) :
  forallb zoom_dir_ok (stdout (snd (run toml_Decode env))) = true.
Proof.
  rewrite run_eq. cbv zeta.
  destruct (os_Open env) as [[data|e]|e]; try reflexivity.
  destruct (toml_Decode data) as [m|e]; try reflexivity.
  cbn [snd]. now apply generate_dir_ok.
Qed.
